(** * The image optimizer of next-server, embedded in Rocq

    Source: packages/next/next-server/server/image-optimizer.ts

    The handler [imageOptimizer] validates the query parameters [url], [w]
    and [q] against the configured policy ([images.sizes], [images.domains]),
    derives a cache key, serves the cached file when there is one and
    otherwise fetches the source image, pipes it through the codec and tees
    the result to the cache file and to the response.

    Modelling conventions.
    - A JavaScript string is a [string]; each [ascii] stands for the code
      point of the same number (0..255).  [hash.update] receives the UTF-8
      encoding of the string ([utf8]).
    - A JavaScript number that holds an integer is a [Z]; [NaN] is [None].
      The model is exact below 2^53 in magnitude, where doubles hold every
      integer; above, the number of the program is a rounded double, and a
      statement that prints a number or looks it up in a list takes it
      below 2^53.
    - The platform and library collaborators ([URL], [accept.mediaType],
      [crypto.createHash('sha256')], [fileExists], [fetch], [sharp]) are the
      fields of a record [Env]; the handler is a function of it.  Each of
      them may throw where the code lets the error out: the negotiation of
      line 31, before every check; the cache lookup; the construction of
      the transformer, before the fetch; the fetch.  SHA-256, base64 and
      the POSIX [path.join] are also defined in full below, so that the
      handler can be run on explicit requests. *)

From Stdlib Require Import ZArith List String Ascii Bool Lia DecimalString.
Import ListNotations.

Local Open Scope string_scope.
Local Open Scope list_scope.
Local Open Scope Z_scope.

(** ** JavaScript built-ins used by the handler *)

Module JS.

Definition code (c : ascii) : Z := Z.of_N (N_of_ascii c).

(** StrWhiteSpaceChar (WhiteSpace and LineTerminator) in the range 0..255:
    TAB, LF, VT, FF, CR, SP and NBSP. *)
Definition isWhiteSpace (c : ascii) : bool :=
  let n := code c in
  ((9 <=? n) && (n <=? 13)) || (n =? 32) || (n =? 160).

Fixpoint trimStart (s : string) : string :=
  match s with
  | String c s' => if isWhiteSpace c then trimStart s' else s
  | EmptyString => EmptyString
  end.

(** The value of a digit in radixes up to 36. *)
Definition digitValue (c : ascii) : option Z :=
  let n := code c in
  if (48 <=? n) && (n <=? 57) then Some (n - 48)
  else if (97 <=? n) && (n <=? 122) then Some (n - 87)
  else if (65 <=? n) && (n <=? 90) then Some (n - 55)
  else None.

(** The longest prefix of [s] made of radix-[R] digits, as digit values. *)
Fixpoint digitsPrefix (R : Z) (s : string) : list Z :=
  match s with
  | String c s' =>
      match digitValue c with
      | Some d => if d <? R then d :: digitsPrefix R s' else []
      | None => []
      end
  | EmptyString => []
  end.

Definition mathInt (R : Z) (ds : list Z) : Z :=
  fold_left (fun acc d => acc * R + d) ds 0.

(** [parseInt(string)] with no radix argument (ECMA-262, 19.2.5):
    leading white space is skipped, one sign is read, a [0x]/[0X] prefix
    selects radix 16, and the longest prefix of digits is the value; no
    digit at all gives [NaN].  The value is the mathematical integer: it
    is the number of the program when its magnitude is below 2^53. *)
Definition parseInt (input : string) : option Z :=
  let S0 := trimStart input in
  let '(sign, S1) :=
    match S0 with
    | String "-" r => (-1, r)
    | String "+" r => (1, r)
    | _ => (1, S0)
    end in
  let '(R, S2) :=
    match S1 with
    | String "0" (String "x" r) => (16, r)
    | String "0" (String "X" r) => (16, r)
    | _ => (10, S1)
    end in
  match digitsPrefix R S2 with
  | [] => None
  | ds => Some (sign * mathInt R ds)
  end.

(** Number-to-string conversion of an integer, as in a template literal:
    the decimal digits, which is what the program prints for an integer of
    magnitude below 2^53 (and up to 10^21). *)
Definition toString (n : Z) : string := NilZero.string_of_int (Z.to_int n).

(** [Array.prototype.includes] on strings and on integers. *)
Definition includesStr (l : list string) (x : string) : bool :=
  existsb (String.eqb x) l.

Definition includesNum (l : list Z) (x : Z) : bool :=
  existsb (Z.eqb x) l.

(** [hash.update(string)] hashes the UTF-8 encoding of the string. *)
Definition utf8Char (c : ascii) : list Z :=
  let n := code c in
  if n <? 128 then [n] else [192 + n / 64; 128 + n mod 64].

Fixpoint utf8 (s : string) : list Z :=
  match s with
  | String c s' => utf8Char c ++ utf8 s'
  | EmptyString => []
  end.

End JS.

(** ** SHA-256 (FIPS 180-4) on lists of bytes

    [crypto.createHash('sha256')] followed by [update] calls and [digest]
    is the SHA-256 of the concatenation of the updates.  Words are 32-bit
    integers held in [Z], with the wrap-around written out. *)

Module SHA256.

Definition wrap (x : Z) : Z := x mod 2 ^ 32.

Definition rotr (n x : Z) : Z :=
  Z.lor (Z.shiftr x n) (wrap (Z.shiftl x (32 - n))).

Definition shr (n x : Z) : Z := Z.shiftr x n.

Definition not32 (x : Z) : Z := Z.lxor x 0xffffffff.

Definition Ch (x y z : Z) : Z := Z.lxor (Z.land x y) (Z.land (not32 x) z).

Definition Maj (x y z : Z) : Z :=
  Z.lxor (Z.lxor (Z.land x y) (Z.land x z)) (Z.land y z).

Definition Sigma0 (x : Z) : Z :=
  Z.lxor (Z.lxor (rotr 2 x) (rotr 13 x)) (rotr 22 x).

Definition Sigma1 (x : Z) : Z :=
  Z.lxor (Z.lxor (rotr 6 x) (rotr 11 x)) (rotr 25 x).

Definition sigma0 (x : Z) : Z :=
  Z.lxor (Z.lxor (rotr 7 x) (rotr 18 x)) (shr 3 x).

Definition sigma1 (x : Z) : Z :=
  Z.lxor (Z.lxor (rotr 17 x) (rotr 19 x)) (shr 10 x).

(** The primes up to 311: the first 64 primes. *)
Definition isPrime (n : Z) : bool :=
  forallb (fun d => negb (n mod Z.of_nat d =? 0)) (seq 2 (Z.to_nat n - 2)).

Definition primes : list Z := filter isPrime (map Z.of_nat (seq 2 310)).

(** The integer cube root, one bit at a time from bit 35 down. *)
Definition cbrt (n : Z) : Z :=
  fold_left (fun r bit =>
               let r' := r + 2 ^ Z.of_nat bit in
               if r' * r' * r' <=? n then r' else r)
            (rev (seq 0 36)) 0.

(** The round constants: the first 32 bits of the fractional parts of the
    cube roots of the first 64 primes. *)
Definition K : list Z :=
  Eval vm_compute in map (fun p => wrap (cbrt (p * 2 ^ 96))) primes.

Definition State : Type := (Z * Z * Z * Z * Z * Z * Z * Z)%type.

(** The initial hash value: the first 32 bits of the fractional parts of
    the square roots of the first 8 primes. *)
Definition H0 : State :=
  Eval vm_compute in
    let h i := wrap (Z.sqrt (nth i primes 0 * 2 ^ 64)) in
    (h 0%nat, h 1%nat, h 2%nat, h 3%nat, h 4%nat, h 5%nat, h 6%nat, h 7%nat).

(** Big-endian bytes of a 64-bit and of a 32-bit integer. *)
Definition be64 (n : Z) : list Z :=
  map (fun i => (n / 2 ^ (8 * i)) mod 256) [7; 6; 5; 4; 3; 2; 1; 0].

Definition be32 (n : Z) : list Z :=
  map (fun i => (n / 2 ^ (8 * i)) mod 256) [3; 2; 1; 0].

(** Padding: a 1 bit, zeros, and the bit length on 64 bits, up to a
    multiple of 64 bytes. *)
Definition pad (msg : list Z) : list Z :=
  let len := Z.of_nat (List.length msg) in
  msg ++ [0x80] ++ repeat 0 (Z.to_nat ((55 - len) mod 64)) ++ be64 (8 * len).

Fixpoint words (bs : list Z) : list Z :=
  match bs with
  | a :: b :: c :: d :: r => (((a * 256 + b) * 256 + c) * 256 + d) :: words r
  | _ => []
  end.

Fixpoint blocks (fuel : nat) (ws : list Z) : list (list Z) :=
  match fuel, ws with
  | S fuel', _ :: _ => firstn 16 ws :: blocks fuel' (skipn 16 ws)
  | _, _ => []
  end.

(** The message schedule, most recent word first. *)
Fixpoint extend (n : nat) (W : list Z) : list Z :=
  match n with
  | O => W
  | S n' =>
      let w i := nth i W 0 in
      extend n' (wrap (sigma1 (w 1%nat) + w 6%nat + sigma0 (w 14%nat) + w 15%nat) :: W)
  end.

Definition schedule (block : list Z) : list Z := rev (extend 48 (rev block)).

Definition round (s : State) (kw : Z * Z) : State :=
  let '(a, b, c, d, e, f, g, h) := s in
  let '(k, w) := kw in
  let T1 := wrap (h + Sigma1 e + Ch e f g + k + w) in
  let T2 := wrap (Sigma0 a + Maj a b c) in
  (wrap (T1 + T2), a, b, c, wrap (d + T1), e, f, g).

Definition compress (s : State) (block : list Z) : State :=
  let '(a, b, c, d, e, f, g, h) := s in
  let '(a', b', c', d', e', f', g', h') :=
    fold_left round (combine K (schedule block)) s in
  (wrap (a + a'), wrap (b + b'), wrap (c + c'), wrap (d + d'),
   wrap (e + e'), wrap (f + f'), wrap (g + g'), wrap (h + h')).

Definition digest (msg : list Z) : list Z :=
  let ws := words (pad msg) in
  let '(a, b, c, d, e, f, g, h) :=
    fold_left compress (blocks (List.length ws) ws) H0 in
  flat_map be32 [a; b; c; d; e; f; g; h].

End SHA256.

(** ** Base64 (RFC 4648, standard alphabet with padding): [digest('base64')] *)

Module Base64.

Definition alphabet : string :=
  "ABCDEFGHIJKLMNOPQRSTUVWXYZabcdefghijklmnopqrstuvwxyz0123456789+/".

Definition char (i : Z) : ascii :=
  match String.get (Z.to_nat i) alphabet with
  | Some c => c
  | None => "="%char
  end.

Fixpoint encode (bs : list Z) : string :=
  match bs with
  | a :: b :: c :: r =>
      String (char (a / 4))
        (String (char ((a mod 4) * 16 + b / 16))
           (String (char ((b mod 16) * 4 + c / 64))
              (String (char (c mod 64)) (encode r))))
  | [a; b] =>
      String (char (a / 4))
        (String (char ((a mod 4) * 16 + b / 16))
           (String (char ((b mod 16) * 4)) "="))
  | [a] =>
      String (char (a / 4)) (String (char ((a mod 4) * 16)) "==")
  | [] => ""
  end.

(** The position of a character in the alphabet, 64 when it is not there. *)
Fixpoint indexFrom (i : Z) (c : ascii) (s : string) : Z :=
  match s with
  | EmptyString => i
  | String d s' => if Ascii.eqb c d then i else indexFrom (i + 1) c s'
  end.

Definition index (c : ascii) : Z := indexFrom 0 c alphabet.

End Base64.

(** ** POSIX [path.join] and [path.dirname] of Node *)

Module Path.

Definition isSep (c : ascii) : bool := Ascii.eqb c "/".

(** The segments of a path between separators (empty ones included);
    [cur] is the segment being read, reversed. *)
Fixpoint segments (cur : string) (p : string) : list string :=
  match p with
  | EmptyString => [cur]
  | String c p' =>
      if isSep c then cur :: segments "" p'
      else segments (cur ++ String c "")%string p'
  end.

(** [normalizeString]: drops empty and [.] segments and resolves [..];
    [acc] is the result so far, last segment first. *)
Fixpoint normalizeString (allowAboveRoot : bool) (acc : list string)
    (segs : list string) : list string :=
  match segs with
  | [] => rev acc
  | seg :: segs' =>
      if (seg =? "")%string || (seg =? ".")%string then
        normalizeString allowAboveRoot acc segs'
      else if (seg =? "..")%string then
        match acc with
        | top :: acc' =>
            if (top =? "..")%string then
              normalizeString allowAboveRoot
                (if allowAboveRoot then ".." :: acc else acc) segs'
            else normalizeString allowAboveRoot acc' segs'
        | [] =>
            normalizeString allowAboveRoot
              (if allowAboveRoot then [".."] else []) segs'
        end
      else normalizeString allowAboveRoot (seg :: acc) segs'
  end.

Definition startsWithSep (p : string) : bool :=
  match p with String c _ => isSep c | EmptyString => false end.

Fixpoint endsWithSep (p : string) : bool :=
  match p with
  | EmptyString => false
  | String c EmptyString => isSep c
  | String _ p' => endsWithSep p'
  end.

Definition normalize (p : string) : string :=
  if (p =? "")%string then "."
  else
    let isAbsolute := startsWithSep p in
    let trailingSeparator := endsWithSep p in
    let body := String.concat "/" (normalizeString (negb isAbsolute) [] (segments "" p)) in
    if (body =? "")%string then
      if isAbsolute then "/" else if trailingSeparator then "./" else "."
    else
      let body' := (if trailingSeparator then body ++ "/" else body)%string in
      if isAbsolute then ("/" ++ body')%string else body'.

Definition join (args : list string) : string :=
  match filter (fun a => negb (a =? "")%string) args with
  | [] => "."
  | parts => normalize (String.concat "/" parts)
  end.

(** The scan of [dirname] from the end of the path down to index 1:
    [r] is that part of the path reversed.  The result is the part before
    the last separator that follows a non-separator, reversed. *)
Fixpoint dirnameScan (matchedSlash : bool) (r : list ascii) : option (list ascii) :=
  match r with
  | [] => None
  | c :: r' =>
      if isSep c then
        if matchedSlash then dirnameScan true r' else Some r'
      else dirnameScan false r'
  end.

Definition dirname (p : string) : string :=
  match list_ascii_of_string p with
  | [] => "."
  | c0 :: rest =>
      let hasRoot := isSep c0 in
      match dirnameScan true (rev rest) with
      | None => if hasRoot then "/" else "."
      | Some r' =>
          match r' with
          | [] => if hasRoot then "//" else String c0 ""
          | _ => string_of_list_ascii (c0 :: rev r')
          end
      end
  end.

End Path.

(** ** Data model of the handler *)

(** A value of the parsed query: [string | string[] | undefined]. *)
Inductive QueryValue : Type :=
| Absent
| Single (s : string)
| Multiple (l : list string).

(** [!v]: [undefined] and the empty string are falsy, an array never is. *)
Definition falsy (v : QueryValue) : bool :=
  match v with
  | Absent => true
  | Single s => (s =? "")%string
  | Multiple _ => false
  end.

(** The request after [parse(reqUrl, true)]: the three query parameters and
    the two headers the handler reads. *)
Record Request : Type := {
  query_url : QueryValue;
  query_w : QueryValue;
  query_q : QueryValue;
  header_host : option string;
  header_accept : option string
}.

(** [this]: [distDir] and [nextConfig.experimental.images], with the
    defaults [sizes = []] and [domains = []] applied.  A configured value
    that is not an array fails [Array.isArray] and so acts as the empty
    list. *)
Record Server : Type := {
  distDir : string;
  sizes : list Z;
  domains : list string
}.

(** The two properties of a WHATWG [URL] object the handler reads. *)
Record URL : Type := {
  hostname : string;
  href : string
}.

Record FetchResponse : Type := {
  ok : bool;
  status : Z;
  body : option (list Z)
}.

(** A call that returns or throws (a promise that resolves or rejects). *)
Inductive Try (A : Type) : Type :=
| Returns (a : A)
| Throws (error : string).
Arguments Returns {A} a.
Arguments Throws {A} error.

(** The calls made on the [sharp] transformer. *)
Inductive SharpOp : Type :=
| Resize (width : Z)
| Webp (quality : Z).

(** The collaborators of the handler.  [URL_new input base] is
    [new URL(input, base)], [None] when it throws.  [accept_mediaType] is
    [accept.mediaType]: it returns the preferred type, the empty string
    when none matches, and throws on a header it cannot read.
    [fileExists] is the helper of [lib/file-exists], which answers whether
    the file is there or throws on an I/O failure.  [sharp ops] stands for
    lines 123-135: the lazy [require('sharp')], [sharp()] and the calls
    [ops] made on it, each of which may throw (a width that is not a
    positive integer, for one); what it returns is the transform, as the
    function from the bytes piped in to the bytes that come out. *)
Record Env : Type := {
  URL_new : string -> option string -> option URL;
  accept_mediaType : option string -> list string -> Try string;
  sha256 : list Z -> list Z;
  fileExists : string -> Try bool;
  fetch : string -> Try FetchResponse;
  sharp : list SharpOp -> Try (list Z -> list Z)
}.

(** The input and output calls of one run, in order. *)
Inductive Event : Type :=
| FileExists (path : string)
| CreateReadStream (path : string)
| Fetch (href : string)
| CreateWriteStream (path : string).

(** How a run ends: [res.statusCode = statusCode; res.end(message)], the
    cache file piped to the response, the transformed image piped to the
    cache file and to the response, or an [Error] thrown. *)
Inductive Outcome : Type :=
| Rejected (statusCode : Z) (message : string)
| ServedFromCache (cacheFile : string)
| ServedTransformed (cacheFile : string) (image : list Z)
| Thrown (message : string).

(** ** Early return and effects *)

(** A step of validation: an early [return] with an outcome, or a value. *)
Definition Check (A : Type) : Type := (Outcome + A)%type.

Definition pass {A : Type} (a : A) : Check A := inr a.

Definition reject {A : Type} (message : string) : Check A :=
  inl (Rejected 400 message).

Definition andThen {A B : Type} (c : Check A) (k : A -> Check B) : Check B :=
  match c with
  | inl o => inl o
  | inr a => k a
  end.

(** A step of the handler: the calls it made, and an early end or a value. *)
Definition IO (A : Type) : Type := (list Event * Check A)%type.

Definition ret {A : Type} (a : A) : IO A := ([], inr a).

Definition bind {A B : Type} (m : IO A) (k : A -> IO B) : IO B :=
  match m with
  | (t, inl o) => (t, inl o)
  | (t, inr a) => let '(t', r) := k a in (t ++ t', r)
  end.

Definition lift {A : Type} (c : Check A) : IO A := ([], c).

Definition call (e : Event) : IO unit := ([e], inr tt).

Definition await {A : Type} (e : Event) (r : Try A) : IO A :=
  ([e], match r with
        | Returns a => inr a
        | Throws error => inl (Thrown error)
        end).

Definition throw {A : Type} (message : string) : IO A :=
  ([], inl (Thrown message)).

(** A synchronous call that may throw, and is no input or output. *)
Definition attempt {A : Type} (r : Try A) : IO A :=
  ([], match r with
       | Returns a => inr a
       | Throws error => inl (Thrown error)
       end).

Definition finish (m : IO Outcome) : list Event * Outcome :=
  match m with
  | (t, inl o) => (t, o)
  | (t, inr o) => (t, o)
  end.

Declare Scope check_scope.
Delimit Scope check_scope with check.
Declare Scope io_scope.
Delimit Scope io_scope with io.

Notation "x <- c ;; k" := (andThen c (fun x => k))
  (at level 61, c at next level, right associativity) : check_scope.
Notation "x <- c ;; k" := (bind c (fun x => k))
  (at level 61, c at next level, right associativity) : io_scope.
Notation "c ;; k" := (bind c (fun _ => k))
  (at level 61, right associativity) : io_scope.

(** ** The handler *)

Definition AVIF : string := "image/avif".
Definition WEBP : string := "image/webp".
Definition MEDIA_TYPES : list string := [WEBP].

(** A parameter name between double quotes, as the messages print it. *)
Definition quoted (name : string) : string :=
  let dq := ascii_of_nat 34 in
  String dq (name ++ String dq "")%string.

(** The literal messages of the 400 responses. *)
Definition msgUrlRequired : string :=
  (quoted "url" ++ " parameter is required")%string.
Definition msgUrlArray : string :=
  (quoted "url" ++ " parameter cannot be an array")%string.
Definition msgUrlNotAllowed : string :=
  (quoted "url" ++ " parameter is not allowed")%string.
Definition msgUrlInvalid : string :=
  (quoted "url" ++ " parameter is invalid")%string.
Definition msgWidthRequired : string :=
  (quoted "w" ++ " parameter (width) is required")%string.
Definition msgWidthArray : string :=
  (quoted "w" ++ " parameter (width) cannot be an array")%string.
Definition msgWidthInvalid : string :=
  (quoted "w" ++ " parameter (width) must be a number greater than 0")%string.
Definition msgWidthNotAllowed (width : Z) : string :=
  (quoted "w" ++ " parameter (width) of " ++ JS.toString width ++ " is not allowed")%string.
Definition msgQualityRequired : string :=
  (quoted "q" ++ " parameter (quality) is required")%string.
Definition msgQualityArray : string :=
  (quoted "q" ++ " parameter (quality) cannot be an array")%string.
Definition msgQualityInvalid : string :=
  (quoted "q" ++ " parameter (quality) must be a number between 1 and 100")%string.

(** [`https://${host}`]: an absent header prints as [undefined]. *)
Definition hostBase (host : option string) : string :=
  ("https://" ++ match host with Some h => h | None => "undefined" end)%string.

(** [if (!v) { ...required } else if (Array.isArray(v)) { ...array }]. *)
Definition requireSingle (v : QueryValue) (required array : string) : Check string :=
  if falsy v then reject required
  else
    match v with
    | Multiple _ => reject array
    | Single s => pass s
    | Absent => reject required
    end.

(** What validation hands over to the rest of the handler. *)
Record Validated : Type := {
  url : string;
  absoluteUrl : URL;
  w : string;
  q : string;
  width : Z;
  quality : Z
}.

Section Handler.

Context (E : Env).

(** Lines 43-65: the [try]/[catch] that computes [absoluteUrl]. *)
Definition resolveUrl (this : Server) (host : option string) (url : string) : Check URL :=
  match URL_new E url None with
  | Some absoluteUrl =>
      if (0 <? Z.of_nat (List.length (domains this)))
         && negb (JS.includesStr (domains this) (hostname absoluteUrl))
      then reject msgUrlNotAllowed
      else pass absoluteUrl
  | None =>
      (* url was not absolute so assuming relative url *)
      match URL_new E url (Some (hostBase host)) with
      | Some absoluteUrl => pass absoluteUrl
      | None => reject msgUrlInvalid
      end
  end.

(** Lines 33-107: every check that ends in a 400 response. *)
Definition validate (this : Server) (req : Request) : Check Validated :=
  (url <- requireSingle (query_url req) msgUrlRequired msgUrlArray ;;
   absoluteUrl <- resolveUrl this (header_host req) url ;;
   w <- requireSingle (query_w req) msgWidthRequired msgWidthArray ;;
   q <- requireSingle (query_q req) msgQualityRequired msgQualityArray ;;
   width <- match JS.parseInt w with
            | Some n => if n =? 0 then reject msgWidthInvalid else pass n
            | None => reject msgWidthInvalid
            end ;;
   _ <- (if (0 <? Z.of_nat (List.length (sizes this)))
            && negb (JS.includesNum (sizes this) width)
         then reject (msgWidthNotAllowed width)
         else pass tt) ;;
   quality <- match JS.parseInt q with
              | Some n =>
                  if (n <? 1) || (100 <? n) then reject msgQualityInvalid
                  else pass n
              | None => reject msgQualityInvalid
              end ;;
   pass {| url := url; absoluteUrl := absoluteUrl; w := w; q := q;
           width := width; quality := quality |})%check.

(** Lines 109-115: the four [hash.update] calls and [digest('base64')]. *)
Definition hashInput (url w q mediaType : string) : list Z :=
  JS.utf8 url ++ JS.utf8 w ++ JS.utf8 q ++ JS.utf8 mediaType.

Definition cacheKey (url w q mediaType : string) : string :=
  Base64.encode (sha256 E (hashInput url w q mediaType)).

Definition cacheFileOf (this : Server) (key : string) : string :=
  Path.join [distDir this; "cache"; "images"; key].

(** Lines 128-135: [sharp().resize(width)], and [webp({ quality })] when
    the negotiated type is WEBP; nothing is added for AVIF. *)
Definition transformer (width quality : Z) (mediaType : string) : list SharpOp :=
  [Resize width]
  ++ (if (mediaType =? AVIF)%string then [] (* Soon *) else [])
  ++ (if (mediaType =? WEBP)%string then [Webp quality] else []).

(** Lines 109-153: cache lookup; on a miss the transformer is built, then
    the source is fetched, piped through it and teed. *)
Definition serve (this : Server) (mediaType : string) (v : Validated) : IO Outcome :=
  (let cacheFile := cacheFileOf this (cacheKey (url v) (w v) (q v) mediaType) in
   hit <- await (FileExists cacheFile) (fileExists E cacheFile) ;;
   if hit : bool then
     call (CreateReadStream cacheFile) ;;
     ret (ServedFromCache cacheFile)
   else
     pipe <- attempt (sharp E (transformer (width v) (quality v) mediaType)) ;;
     let target := href (absoluteUrl v) in
     fetchResponse <- await (Fetch target) (fetch E target) ;;
     if negb (ok fetchResponse) then
       throw ("Unexpected status " ++ JS.toString (status fetchResponse)
              ++ " from " ++ target)%string
     else
       match body fetchResponse with
       | None => throw ("No body from " ++ target)%string
       | Some bytes =>
           let imageTransform := pipe bytes in
           call (CreateWriteStream cacheFile) ;;
           ret (ServedTransformed cacheFile imageTransform)
       end)%io.

(** Line 31: [accept.mediaType(req.headers.accept, MEDIA_TYPES)], called
    before every check and outside any [try]. *)
Definition negotiate (req : Request) : Try string :=
  accept_mediaType E (header_accept req) MEDIA_TYPES.

Definition imageOptimizer (this : Server) (req : Request) : list Event * Outcome :=
  finish
    (mediaType <- attempt (negotiate req) ;;
     v <- lift (validate this req) ;;
     serve this mediaType v)%io.

(** The media type of a request whose negotiation returns; when it throws
    there is none, and the handler derives no key. *)
Definition negotiated (req : Request) : string :=
  match negotiate req with
  | Returns mediaType => mediaType
  | Throws _ => EmptyString
  end.

(** *** Notions the statements below use *)

(** The URL the [url] parameter resolves to: as an absolute URL, or else
    as a relative URL against the Host header. *)
Definition resolvedUrl (host : option string) (url : string) : option URL :=
  match URL_new E url None with
  | Some u => Some u
  | None => URL_new E url (Some (hostBase host))
  end.

(** The cache key of a validated request. *)
Definition derivedKey (req : Request) (v : Validated) : string :=
  cacheKey (url v) (w v) (q v) (negotiated req).

(** The checks of the validator one by one, each on the request alone and
    giving the message of its 400 response when it fails.  A check on the
    value of a parameter says nothing when the parameter is not a single
    string. *)
Definition checkPresent (v : QueryValue) (required : string) : option string :=
  if falsy v then Some required else None.

Definition checkNotArray (v : QueryValue) (array : string) : option string :=
  match v with
  | Multiple _ => Some array
  | _ => None
  end.

Definition checkUrlResolves (this : Server) (req : Request) : option string :=
  match query_url req with
  | Single s =>
      match resolveUrl this (header_host req) s with
      | inl (Rejected _ message) => Some message
      | _ => None
      end
  | _ => None
  end.

Definition checkWidthNumber (req : Request) : option string :=
  match query_w req with
  | Single s =>
      match JS.parseInt s with
      | Some n => if n =? 0 then Some msgWidthInvalid else None
      | None => Some msgWidthInvalid
      end
  | _ => None
  end.

Definition checkWidthAllowed (this : Server) (req : Request) : option string :=
  match query_w req with
  | Single s =>
      match JS.parseInt s with
      | Some n =>
          if (0 <? Z.of_nat (List.length (sizes this)))
             && negb (JS.includesNum (sizes this) n)
          then Some (msgWidthNotAllowed n) else None
      | None => None
      end
  | _ => None
  end.

Definition checkQualityNumber (req : Request) : option string :=
  match query_q req with
  | Single s =>
      match JS.parseInt s with
      | Some n => if (n <? 1) || (100 <? n) then Some msgQualityInvalid else None
      | None => Some msgQualityInvalid
      end
  | _ => None
  end.

(** The order in which the handler performs them. *)
Definition checksInOrder (this : Server) (req : Request) : list (option string) :=
  [ checkPresent (query_url req) msgUrlRequired;
    checkNotArray (query_url req) msgUrlArray;
    checkUrlResolves this req;
    checkPresent (query_w req) msgWidthRequired;
    checkNotArray (query_w req) msgWidthArray;
    checkPresent (query_q req) msgQualityRequired;
    checkNotArray (query_q req) msgQualityArray;
    checkWidthNumber req;
    checkWidthAllowed this req;
    checkQualityNumber req ].

End Handler.

(** The first failure of a list of checks. *)
Fixpoint firstFailure (checks : list (option string)) : option string :=
  match checks with
  | [] => None
  | Some message :: _ => Some message
  | None :: rest => firstFailure rest
  end.

(** A byte. *)
Definition isByte (b : Z) : Prop := 0 <= b < 256.

(** ** A concrete environment

    To run the handler on explicit requests, the collaborators are given
    concrete definitions: the URL parser on a fragment of the URL Standard,
    the SHA-256 above, a cache directory given by the list of its files, an
    upstream that answers every fetch with one given response, a
    negotiation that ends as the scenario says for its Accept header (one
    media type, or the error thrown for a header that cannot be read), and
    a transformer that refuses the arguments the image library refuses. *)

Module WHATWG.

Definition isLower (c : ascii) : bool :=
  let n := JS.code c in (97 <=? n) && (n <=? 122).

Definition isPathChar (c : ascii) : bool :=
  let n := JS.code c in
  isLower c
  || ((65 <=? n) && (n <=? 90))
  || ((48 <=? n) && (n <=? 57))
  || (n =? 45) || (n =? 95) || (n =? 46) || (n =? 47).

(** A host of the fragment: labels of lowercase letters separated by
    single dots. *)
Fixpoint isHost (afterLetter : bool) (s : string) : bool :=
  match s with
  | EmptyString => afterLetter
  | String c s' =>
      if isLower c then isHost true s'
      else if Ascii.eqb c "." && afterLetter then isHost false s'
      else false
  end.

(** A path of the fragment: it starts with a slash, is made of letters,
    digits, [-], [_], [.] and [/], and no segment is empty or starts
    with a dot (so that no segment is removed or resolved). *)
Fixpoint isPathTail (prev : ascii) (s : string) : bool :=
  match s with
  | EmptyString => true
  | String c s' =>
      isPathChar c
      && negb (Ascii.eqb prev "/" && (Ascii.eqb c "/" || Ascii.eqb c "."))
      && isPathTail c s'
  end.

Definition isPath (s : string) : bool :=
  match s with
  | String "/" s' => isPathTail "/" s'
  | _ => false
  end.

Fixpoint stripPrefix (p s : string) : option string :=
  match p, s with
  | EmptyString, _ => Some s
  | String a p', String b s' => if Ascii.eqb a b then stripPrefix p' s' else None
  | _, _ => None
  end.

(** The input cut before its first slash. *)
Fixpoint splitAuthority (s : string) : string * string :=
  match s with
  | EmptyString => (EmptyString, EmptyString)
  | String c s' =>
      if Ascii.eqb c "/" then (EmptyString, s)
      else let '(h, p) := splitAuthority s' in (String c h, p)
  end.

(** Scheme, host and path of [scheme://host] or [scheme://host/path]. *)
Definition parseWithScheme (scheme input : string) : option (string * string * string) :=
  match stripPrefix (scheme ++ "://")%string input with
  | Some rest =>
      let '(h, p) := splitAuthority rest in
      if isHost false h && ((p =? "")%string || isPath p)
      then Some (scheme, h, if (p =? "")%string then "/" else p)
      else None
  | None => None
  end.

Definition parseAbsolute (input : string) : option (string * string * string) :=
  match parseWithScheme "https" input with
  | Some r => Some r
  | None => parseWithScheme "http" input
  end.

Definition serialize (u : string * string * string) : URL :=
  let '(scheme, h, p) := u in
  {| hostname := h; href := (scheme ++ "://" ++ h ++ p)%string |}.

(** [new URL(input, base)] on the fragment where [input] is
    [http(s)://host], [http(s)://host/path] or, with a base, [/path], and
    [base] is of the first two forms.  On it the URL Standard leaves host
    and path as written.  [None] stands for the [TypeError]; inputs
    outside the fragment are not modelled and give [None] as well. *)
Definition URL_new (input : string) (base : option string) : option URL :=
  match base with
  | None => option_map serialize (parseAbsolute input)
  | Some b =>
      match parseAbsolute b with
      | None => None
      | Some (scheme, h, _) =>
          match parseAbsolute input with
          | Some u => Some (serialize u)
          | None =>
              if isPath input then Some (serialize (scheme, h, input))
              else None
          end
      end
  end.

End WHATWG.

Module Scenario.

(** A stand-in for the codec: the output records the operations applied
    (one tag and the argument per operation) before the input bytes. *)
Definition codec (ops : list SharpOp) (bytes : list Z) : list Z :=
  flat_map (fun op => match op with
                      | Resize width => [1; width]
                      | Webp quality => [2; quality]
                      end) ops ++ bytes.

(** The checks of the calls on the transformer: [resize] wants a positive
    width and [webp] a quality from 1 to 100. *)
Fixpoint checkOps (ops : list SharpOp) : Try unit :=
  match ops with
  | [] => Returns tt
  | Resize width :: rest =>
      if 0 <? width then checkOps rest
      else Throws "Expected positive integer for width"
  | Webp quality :: rest =>
      if (1 <=? quality) && (quality <=? 100) then checkOps rest
      else Throws "Expected integer between 1 and 100 for quality"
  end.

Definition sharpStandIn (ops : list SharpOp) : Try (list Z -> list Z) :=
  match checkOps ops with
  | Returns _ => Returns (codec ops)
  | Throws error => Throws error
  end.

(** The environment in which negotiation ends as [negotiation] says. *)
Definition envWith (negotiation : Try string) (files : list string)
    (upstream : Try FetchResponse) : Env :=
  {| URL_new := WHATWG.URL_new;
     accept_mediaType := fun _ _ => negotiation;
     sha256 := SHA256.digest;
     fileExists := fun path => Returns (JS.includesStr files path);
     fetch := fun _ => upstream;
     sharp := sharpStandIn |}.

Definition env (negotiated : string) : list string -> Try FetchResponse -> Env :=
  envWith (Returns negotiated).

Definition server (allowedSizes : list Z) (allowedDomains : list string) : Server :=
  {| distDir := "/app/.next"; sizes := allowedSizes; domains := allowedDomains |}.

Definition requestAccepting (accept : string) (url w q : QueryValue)
    (host : string) : Request :=
  {| query_url := url; query_w := w; query_q := q;
     header_host := Some host; header_accept := Some accept |}.

Definition request : QueryValue -> QueryValue -> QueryValue -> string -> Request :=
  requestAccepting WEBP.

Definition image : list Z := [255; 216; 255; 224].

Definition found : Try FetchResponse :=
  Returns {| ok := true; status := 200; body := Some image |}.

Definition notFound : Try FetchResponse :=
  Returns {| ok := false; status := 404; body := Some [] |}.

End Scenario.


(** ** Notions of the further properties *)

(** The request is refused by validation with [message]: the validator
    gives the 400 result with this message; the run makes no call, however
    negotiation ends; and when negotiation returns, the run is this 400
    response (when it throws, on line 31, the run is that error). *)
Definition refusedWith (E : Env) (this : Server) (req : Request)
    (message : string) : Prop :=
  validate E this req = inl (Rejected 400 message) /\
  fst (imageOptimizer E this req) = [] /\
  (forall mediaType,
      negotiate E req = Returns mediaType ->
      imageOptimizer E this req = ([], Rejected 400 message)).

(** The runs the handler can make: the calls of a run and how it ends. *)
Inductive RunShape : list Event -> Outcome -> Prop :=
| RunNegotiationThrows (error : string) :
    RunShape [] (Thrown error)
| RunRejected (message : string) :
    RunShape [] (Rejected 400 message)
| RunLookupThrows (cacheFile error : string) :
    RunShape [FileExists cacheFile] (Thrown error)
| RunTransformerThrows (cacheFile error : string) :
    RunShape [FileExists cacheFile] (Thrown error)
| RunHit (cacheFile : string) :
    RunShape [FileExists cacheFile; CreateReadStream cacheFile]
      (ServedFromCache cacheFile)
| RunFetchThrows (cacheFile target error : string) :
    RunShape [FileExists cacheFile; Fetch target] (Thrown error)
| RunMiss (cacheFile target : string) (image : list Z) :
    RunShape [FileExists cacheFile; Fetch target; CreateWriteStream cacheFile]
      (ServedTransformed cacheFile image).

(** Two environments with the same URL parser, negotiator and hash: they
    may differ in the files of the cache, the upstream and the codec. *)
Definition sameFunctions (E E' : Env) : Prop :=
  (forall input base, URL_new E' input base = URL_new E input base) /\
  (forall header preferences,
      accept_mediaType E' header preferences = accept_mediaType E header preferences) /\
  (forall msg, sha256 E' msg = sha256 E msg).

Module Faults.

(** A cache directory that cannot be read. *)
Definition brokenDisk (upstream : Try FetchResponse) : Env :=
  {| URL_new := WHATWG.URL_new;
     accept_mediaType := fun _ _ => Returns WEBP;
     sha256 := SHA256.digest;
     fileExists := fun _ => Throws "EACCES";
     fetch := fun _ => upstream;
     sharp := Scenario.sharpStandIn |}.

(** An upstream that cannot be reached. *)
Definition unreachable : Try FetchResponse := Throws "ECONNREFUSED".

(** An Accept header that the negotiator cannot read. *)
Definition invalidAccept : Env :=
  Scenario.envWith (Throws "Invalid accept header") [] Scenario.found.

End Faults.

(** A name of a file or directory: not empty, not [.] or [..], and with no
    separator in it. *)
Definition plainName (name : string) : Prop :=
  name <> "" /\ name <> "." /\ name <> ".."
  /\ Forall (fun c => Path.isSep c = false) (list_ascii_of_string name).

(** The segments of a path that are not empty. *)
Definition nonEmptySegments (p : string) : list string :=
  filter (fun s => negb (s =? "")%string) (Path.segments "" p).


(** * Properties *)

(** ** Early return *)

Lemma requireSingle_pass (v : QueryValue) (required array s : string) :
  requireSingle v required array = inr s <-> v = Single s /\ s <> "".
Proof.
  unfold requireSingle, falsy, reject, pass.
  destruct v as [| s' | l]; simpl.
  - split; [discriminate | intros [H _]; discriminate].
  - destruct (String.eqb_spec s' "") as [-> | Hne].
    + split; [discriminate | intros [H Hs]; inversion H; subst; contradiction].
    + split.
      * intros H; inversion H; subst; auto.
      * intros [H _]; inversion H; reflexivity.
  - split; [discriminate | intros [H _]; discriminate].
Qed.

Lemma requireSingle_single (s required array : string) :
  s <> "" -> requireSingle (Single s) required array = inr s.
Proof. intros Hs. apply requireSingle_pass. auto. Qed.

Lemma requireSingle_falsy (v : QueryValue) (required array : string) :
  falsy v = true -> requireSingle v required array = inl (Rejected 400 required).
Proof. unfold requireSingle. intros ->. reflexivity. Qed.

Section HandlerFacts.

Context (E : Env).

(** A negotiation that throws ends the run before any check. *)
Lemma imageOptimizer_negotiation_throws this req e :
  negotiate E req = Throws e -> imageOptimizer E this req = ([], Thrown e).
Proof. intros H. unfold imageOptimizer. rewrite H. reflexivity. Qed.

Lemma negotiated_returns req mediaType :
  negotiate E req = Returns mediaType -> negotiated E req = mediaType.
Proof. intros H. unfold negotiated. now rewrite H. Qed.

(** A request that validation rejects ends there: no call is made. *)
Lemma imageOptimizer_rejected this req mediaType o :
  negotiate E req = Returns mediaType ->
  validate E this req = inl o -> imageOptimizer E this req = ([], o).
Proof. intros Hm H. unfold imageOptimizer. rewrite Hm, H. reflexivity. Qed.

Lemma imageOptimizer_rejected_no_call this req o :
  validate E this req = inl o -> fst (imageOptimizer E this req) = [].
Proof.
  intros H. unfold imageOptimizer. rewrite H.
  destruct (negotiate E req); reflexivity.
Qed.

Lemma refusedWith_intro this req message :
  validate E this req = inl (Rejected 400 message) -> refusedWith E this req message.
Proof.
  intros H. split; [exact H |]. split.
  - now apply imageOptimizer_rejected_no_call with (o := Rejected 400 message).
  - intros mediaType Hm. now apply imageOptimizer_rejected with (mediaType := mediaType).
Qed.

(** A request that passes validation continues with [serve]. *)
Lemma imageOptimizer_validated this req mediaType v :
  negotiate E req = Returns mediaType ->
  validate E this req = inr v ->
  imageOptimizer E this req = finish (serve E this mediaType v).
Proof.
  intros Hm H. unfold imageOptimizer. rewrite Hm, H. unfold attempt, lift, bind.
  destruct (serve E this mediaType v) as [t r]. reflexivity.
Qed.

(** Every outcome of validation is a 400 response or a validated request. *)
Lemma resolveUrl_rejects this host u o :
  resolveUrl E this host u = inl o -> exists m, o = Rejected 400 m.
Proof.
  unfold resolveUrl, reject, pass.
  destruct (URL_new E u None).
  - destruct (_ && _); [intros H; inversion H; eauto | discriminate].
  - destruct (URL_new E u (Some _)); [discriminate | intros H; inversion H; eauto].
Qed.

(** What a validated request records. *)
Lemma validate_inr this req v :
  validate E this req = inr v ->
  query_url req = Single (url v) /\ url v <> "" /\
  resolveUrl E this (header_host req) (url v) = inr (absoluteUrl v) /\
  query_w req = Single (w v) /\ w v <> "" /\
  query_q req = Single (q v) /\ q v <> "" /\
  JS.parseInt (w v) = Some (width v) /\ width v <> 0 /\
  (0 <? Z.of_nat (List.length (sizes this)))
    && negb (JS.includesNum (sizes this) (width v)) = false /\
  JS.parseInt (q v) = Some (quality v) /\ 1 <= quality v <= 100.
Proof.
  unfold validate, andThen.
  destruct (requireSingle (query_url req) _ _) as [o | u] eqn:Hu; [discriminate |].
  destruct (resolveUrl E this (header_host req) u) as [o | a] eqn:Ha; [discriminate |].
  destruct (requireSingle (query_w req) _ _) as [o | ws] eqn:Hw; [discriminate |].
  destruct (requireSingle (query_q req) _ _) as [o | qs] eqn:Hq; [discriminate |].
  apply requireSingle_pass in Hu, Hw, Hq.
  destruct (JS.parseInt ws) as [n |] eqn:Hn; [| discriminate].
  destruct (Z.eqb_spec n 0) as [| Hn0]; [discriminate |].
  unfold pass at 1.
  destruct (_ && negb _) eqn:Hs; [discriminate |].
  destruct (JS.parseInt qs) as [m |] eqn:Hm; [| discriminate].
  destruct ((m <? 1) || (100 <? m)) eqn:Hb; [discriminate |].
  intros H. inversion H; subst; simpl. clear H.
  apply orb_false_elim in Hb. destruct Hb as [Hb1 Hb2].
  apply Z.ltb_ge in Hb1, Hb2.
  intuition.
Qed.

(** A request that reaches the quality check. *)
Lemma validate_reaches_quality this req u a ws qs n :
  query_url req = Single u -> u <> "" ->
  resolveUrl E this (header_host req) u = inr a ->
  query_w req = Single ws -> ws <> "" ->
  query_q req = Single qs -> qs <> "" ->
  JS.parseInt ws = Some n -> n <> 0 ->
  (0 <? Z.of_nat (List.length (sizes this)))
    && negb (JS.includesNum (sizes this) n) = false ->
  validate E this req =
  match JS.parseInt qs with
  | Some m =>
      if (m <? 1) || (100 <? m) then inl (Rejected 400 msgQualityInvalid)
      else inr {| url := u; absoluteUrl := a; w := ws; q := qs;
                  width := n; quality := m |}
  | None => inl (Rejected 400 msgQualityInvalid)
  end.
Proof.
  intros Hu Hu0 Ha Hw Hw0 Hq Hq0 Hn Hn0 Hs.
  unfold validate, andThen.
  rewrite Hu, Hw, Hq, !requireSingle_single by assumption.
  rewrite Ha, Hn.
  destruct (Z.eqb_spec n 0) as [| _]; [contradiction |].
  unfold pass at 1. rewrite Hs. unfold pass at 1.
  destruct (JS.parseInt qs) as [m |]; [| reflexivity].
  destruct ((m <? 1) || (100 <? m)); reflexivity.
Qed.

End HandlerFacts.

(** ** C1: the domain allow-list *)

(** C1, as amended.  For every policy with a non-empty domain allow-list and
    every request whose [url] parameter parses as an absolute URL with a
    hostname that is not in the list, the validator rejects the request
    with the 400 result whose message says that the url parameter is not
    allowed, and the run makes no call at all (no fetch, no cache access);
    when the negotiation of line 31 returns, the run is that 400 response.
    The check stands inside the [try] of the absolute parse only; nothing
    is stated for a [url] that is resolved against the Host header. *)
Theorem C1_absolute_url_outside_allow_list
    (E : Env) (this : Server) (req : Request) (u : string) (parsed : URL) :
  domains this <> [] ->
  query_url req = Single u -> u <> "" ->
  URL_new E u None = Some parsed ->
  JS.includesStr (domains this) (hostname parsed) = false ->
  validate E this req = inl (Rejected 400 msgUrlNotAllowed) /\
  fst (imageOptimizer E this req) = [] /\
  (forall mediaType,
      negotiate E req = Returns mediaType ->
      imageOptimizer E this req = ([], Rejected 400 msgUrlNotAllowed)).
Proof.
  intros Hd Hu Hu0 Hp Hin.
  apply refusedWith_intro.
  unfold validate, andThen.
  rewrite Hu, requireSingle_single by assumption.
  unfold resolveUrl. rewrite Hp, Hin.
  destruct (domains this) as [| d ds]; [contradiction |].
  reflexivity.
Qed.

(** The third end-to-end scenario of the specification: the allow-list is
    [good.com] and the request asks for [https://evil.com/x.jpg]. *)
Lemma C1_absolute_url_outside_allow_list_witness :
  imageOptimizer (Scenario.env WEBP [] Scenario.found)
    (Scenario.server [] ["good.com"])
    (Scenario.request (Single "https://evil.com/x.jpg") (Single "640") (Single "75")
       "localhost")
  = ([], Rejected 400 msgUrlNotAllowed).
Proof.
  apply (C1_absolute_url_outside_allow_list
           (Scenario.env WEBP [] Scenario.found)
           (Scenario.server [] ["good.com"])
           (Scenario.request (Single "https://evil.com/x.jpg") (Single "640")
              (Single "75") "localhost")
           "https://evil.com/x.jpg"
           {| hostname := "evil.com"; href := "https://evil.com/x.jpg" |}
           ltac:(discriminate) eq_refl ltac:(discriminate) eq_refl eq_refl)
    with (mediaType := WEBP).
  reflexivity.
Defined.

(** C1 as stated fails on a relative url.  The allow-list is [example.com];
    the request asks for [/x.jpg] with Host [localhost].  The url resolves to
    hostname [localhost], which is not in the list, and the request is not
    rejected: the image is fetched from [https://localhost/x.jpg]. *)
Lemma C1_relative_url_not_checked :
  let E := Scenario.env WEBP [] Scenario.found in
  let this := Scenario.server [] ["example.com"] in
  let req := Scenario.request (Single "/x.jpg") (Single "640") (Single "75") "localhost" in
  let cacheFile := "/app/.next/cache/images/PBz52EWDA0dWytml1lN6hMmh3n46rPC/3GObKX99d/k=" in
  (0 < List.length (domains this))%nat /\
  resolvedUrl E (header_host req) "/x.jpg" =
    Some {| hostname := "localhost"; href := "https://localhost/x.jpg" |} /\
  JS.includesStr (domains this) "localhost" = false /\
  imageOptimizer E this req =
    ([FileExists cacheFile; Fetch "https://localhost/x.jpg"; CreateWriteStream cacheFile],
     ServedTransformed cacheFile (Scenario.codec [Resize 640; Webp 75] Scenario.image)).
Proof.
  cbv zeta. split; [simpl; lia |]. split; [reflexivity |]. split; [reflexivity |].
  vm_compute. reflexivity.
Qed.

(** ** The order of the checks *)

Section Order.

Context (E : Env).

(** The validator answers with the first failure of [checksInOrder], and
    passes a request exactly when none of the checks fails. *)
Lemma validate_firstFailure this req :
  match validate E this req with
  | inl o =>
      exists m, o = Rejected 400 m /\ firstFailure (checksInOrder E this req) = Some m
  | inr _ => firstFailure (checksInOrder E this req) = None
  end.
Proof.
  unfold validate, checksInOrder, andThen.
  unfold checkPresent, checkNotArray, checkUrlResolves, checkWidthNumber,
    checkWidthAllowed, checkQualityNumber, requireSingle.
  destruct (query_url req) as [| u | lu]; simpl; eauto.
  destruct (u =? "")%string; simpl; eauto.
  destruct (resolveUrl E this (header_host req) u) as [o | a] eqn:Hr.
  { destruct (resolveUrl_rejects E _ _ _ _ Hr) as [m ->]. simpl. eauto. }
  destruct (query_w req) as [| ws | lw]; simpl; eauto.
  destruct (ws =? "")%string; simpl; eauto.
  destruct (query_q req) as [| qs | lq]; simpl; eauto.
  destruct (qs =? "")%string; simpl; eauto.
  destruct (JS.parseInt ws) as [n |]; simpl; eauto.
  destruct (n =? 0); simpl; eauto.
  destruct (_ && negb _); simpl; eauto.
  destruct (JS.parseInt qs) as [m |]; simpl; eauto.
  destruct ((m <? 1) || (100 <? m)); simpl; eauto.
Qed.

(** A request with a missing parameter does not pass validation. *)
Lemma validate_missing this req :
  falsy (query_url req) = true \/ falsy (query_w req) = true
    \/ falsy (query_q req) = true ->
  exists m, validate E this req = inl (Rejected 400 m)
            /\ firstFailure (checksInOrder E this req) = Some m.
Proof.
  intros Hmiss.
  pose proof (validate_firstFailure this req) as Hff.
  destruct (validate E this req) as [o | v] eqn:Hv.
  - destruct Hff as [m [-> Hm]]. eauto.
  - exfalso. apply validate_inr in Hv.
    destruct Hv as (Hu & Hu0 & _ & Hw & Hw0 & Hq & Hq0 & _).
    rewrite Hu, Hw, Hq in Hmiss. simpl in Hmiss.
    apply String.eqb_neq in Hu0, Hw0, Hq0.
    rewrite Hu0, Hw0, Hq0 in Hmiss. intuition discriminate.
Qed.

End Order.

(** ** C6: validation order *)

(** C6, as amended.  Validation stops at the first failure in the order of
    the code: presence and arity of [url], resolution of [url] with the
    domain allow-list, presence and arity of [w], presence and arity of [q],
    and only then the numeric parse of [w], the width allow-list and the
    numeric parse with bounds of [q].  So a request with a good [url], a
    non-numeric [w] and a missing [q] is rejected by the validator with the
    message that the q parameter is required; the run makes no call, and is
    this 400 response when the negotiation of line 31 returns. *)
Theorem C6_checks_in_code_order (E : Env) (this : Server) (req : Request) :
  match validate E this req with
  | inl o =>
      exists m, o = Rejected 400 m /\ firstFailure (checksInOrder E this req) = Some m
  | inr _ => firstFailure (checksInOrder E this req) = None
  end
  /\
  (forall u a ws,
      query_url req = Single u -> u <> "" ->
      resolveUrl E this (header_host req) u = inr a ->
      query_w req = Single ws -> ws <> "" ->
      JS.parseInt ws = None ->
      falsy (query_q req) = true ->
      validate E this req = inl (Rejected 400 msgQualityRequired) /\
      fst (imageOptimizer E this req) = [] /\
      (forall mediaType,
          negotiate E req = Returns mediaType ->
          imageOptimizer E this req = ([], Rejected 400 msgQualityRequired))).
Proof.
  split; [apply validate_firstFailure |].
  intros u a ws Hu Hu0 Ha Hw Hw0 _ Hq.
  apply refusedWith_intro.
  unfold validate, andThen.
  rewrite Hu, Hw, !requireSingle_single, Ha by assumption.
  rewrite requireSingle_falsy by assumption. reflexivity.
Qed.

Lemma C6_checks_in_code_order_witness :
  imageOptimizer (Scenario.env WEBP [] Scenario.found) (Scenario.server [] [])
    (Scenario.request (Single "https://example.com/a.jpg") (Single "abc") Absent
       "localhost")
  = ([], Rejected 400 msgQualityRequired).
Proof.
  apply (proj2 (C6_checks_in_code_order
                  (Scenario.env WEBP [] Scenario.found) (Scenario.server [] [])
                  (Scenario.request (Single "https://example.com/a.jpg")
                     (Single "abc") Absent "localhost"))
           "https://example.com/a.jpg"
           {| hostname := "example.com"; href := "https://example.com/a.jpg" |}
           "abc" eq_refl ltac:(discriminate) eq_refl eq_refl ltac:(discriminate)
           eq_refl eq_refl)
    with (mediaType := WEBP).
  reflexivity.
Defined.

(** C6 as stated fails: with [w=abc] and no [q], the answer is the message
    of the missing quality, not the one of the invalid width. *)
Lemma C6_quality_presence_before_width_parse :
  let E := Scenario.env WEBP [] Scenario.found in
  let this := Scenario.server [] [] in
  let req := Scenario.request (Single "https://example.com/a.jpg") (Single "abc") Absent
               "localhost" in
  JS.parseInt "abc" = None /\
  query_q req = Absent /\
  imageOptimizer E this req = ([], Rejected 400 msgQualityRequired) /\
  msgQualityRequired <> msgWidthInvalid.
Proof.
  cbv zeta. repeat split; try reflexivity. discriminate.
Qed.

(** ** C7: missing parameters *)

(** C7, as amended.  A request in which [url], [w] or [q] is missing (absent
    or empty) is refused by the validator with status 400 and makes no
    call: no fetch, no cache read or write; when the negotiation of line 31
    returns, the run is this 400 response.  The message is the one of the
    first check that fails, which is the literal message of the missing
    parameter in these cases: the one of [url] when [url] is missing; the
    one of [w] when [w] is missing and the checks on [url] pass; the one
    of [q] when [q] is missing, the checks on [url] pass and [w] is a
    single value.  (Character 034 is the double quote.) *)
Theorem C7_missing_parameter (E : Env) (this : Server) (req : Request) :
  falsy (query_url req) = true \/ falsy (query_w req) = true
    \/ falsy (query_q req) = true ->
  exists m,
    refusedWith E this req m /\
    firstFailure (checksInOrder E this req) = Some m /\
    (falsy (query_url req) = true ->
     m = String "034" ("url" ++ String "034" " parameter is required")%string) /\
    (forall u a,
        query_url req = Single u -> u <> "" ->
        resolveUrl E this (header_host req) u = inr a ->
        falsy (query_w req) = true ->
        m = String "034" ("w" ++ String "034" " parameter (width) is required")%string) /\
    (forall u a ws,
        query_url req = Single u -> u <> "" ->
        resolveUrl E this (header_host req) u = inr a ->
        query_w req = Single ws -> ws <> "" ->
        falsy (query_q req) = true ->
        m = String "034" ("q" ++ String "034" " parameter (quality) is required")%string).
Proof.
  intros Hmiss.
  destruct (validate_missing E this req Hmiss) as [m [Hv Hm]].
  exists m. split; [now apply refusedWith_intro |].
  split; [exact Hm |].
  unfold checksInOrder, checkPresent, checkNotArray, checkUrlResolves in Hm.
  split; [| split].
  - intros Hu. rewrite Hu in Hm. simpl in Hm. inversion Hm. reflexivity.
  - intros u a Hu Hu0 Ha Hw.
    apply String.eqb_neq in Hu0.
    rewrite Hu, Ha, Hw in Hm. simpl in Hm. rewrite Hu0 in Hm. simpl in Hm.
    inversion Hm. reflexivity.
  - intros u a ws Hu Hu0 Ha Hw Hw0 Hq.
    apply String.eqb_neq in Hu0, Hw0.
    rewrite Hu, Ha, Hw, Hq in Hm. simpl in Hm. rewrite Hu0, Hw0 in Hm.
    simpl in Hm. inversion Hm. reflexivity.
Qed.

(** The example of the specification: [w] is missing. *)
Lemma C7_missing_parameter_witness :
  exists m,
    imageOptimizer (Scenario.env WEBP [] Scenario.found) (Scenario.server [] [])
      (Scenario.request (Single "https://example.com/a.jpg") Absent (Single "75")
         "localhost")
    = ([], Rejected 400 m) /\
    m = String "034" ("w" ++ String "034" " parameter (width) is required")%string.
Proof.
  destruct (C7_missing_parameter
              (Scenario.env WEBP [] Scenario.found) (Scenario.server [] [])
              (Scenario.request (Single "https://example.com/a.jpg") Absent
                 (Single "75") "localhost")
              (or_intror (or_introl eq_refl))) as [m [Hrun [_ [_ [Hw _]]]]].
  exists m. split.
  - destruct Hrun as (_ & _ & Hrun). now apply Hrun with (mediaType := WEBP).
  - apply (Hw "https://example.com/a.jpg"
              {| hostname := "example.com"; href := "https://example.com/a.jpg" |});
      [reflexivity | discriminate | reflexivity | reflexivity].
Defined.

(** C7 as stated fails in two ways.  With an Accept header that the
    negotiator cannot read, a request with no [url] ends in the error
    thrown on line 31 and not in a 400 response.  And a request with no
    [w] whose [url] is given twice is answered with the message of the
    [url] array, not with the one of the missing [w]. *)
Lemma C7_missing_parameter_other_outcomes :
  imageOptimizer Faults.invalidAccept (Scenario.server [] [])
    (Scenario.requestAccepting "image/webp;q=" Absent (Single "640") (Single "75")
       "localhost")
  = ([], Thrown "Invalid accept header") /\
  imageOptimizer (Scenario.env WEBP [] Scenario.found) (Scenario.server [] [])
    (Scenario.request (Multiple ["/a.jpg"; "/b.jpg"]) Absent (Single "75") "localhost")
  = ([], Rejected 400 msgUrlArray) /\
  msgUrlArray <> msgWidthRequired.
Proof.
  split; [reflexivity |]. split; [reflexivity | discriminate].
Qed.

(** ** C8: quality bounds *)

(** C8.  For a request that reaches the quality check (the checks on [url]
    and [w] pass and [q] is a single non-empty value), quality validation
    accepts exactly when [parseInt(q)] is an integer from 1 to 100: then
    validation passes with that quality, and otherwise the validator gives
    the 400 result with the message of the invalid quality, the run makes
    no call, and is this 400 response when the negotiation of line 31
    returns.  In particular [q=0] and [q=101] are rejected, [q=1] and
    [q=100] accepted. *)
Theorem C8_quality_bounds
    (E : Env) (this : Server) (req : Request) (u : string) (a : URL)
    (ws qs : string) (n : Z) :
  query_url req = Single u -> u <> "" ->
  resolveUrl E this (header_host req) u = inr a ->
  query_w req = Single ws -> ws <> "" ->
  query_q req = Single qs -> qs <> "" ->
  JS.parseInt ws = Some n -> n <> 0 ->
  (0 <? Z.of_nat (List.length (sizes this)))
    && negb (JS.includesNum (sizes this) n) = false ->
  let accepted m :=
    validate E this req =
    inr {| url := u; absoluteUrl := a; w := ws; q := qs; width := n; quality := m |} in
  let rejected :=
    validate E this req = inl (Rejected 400 msgQualityInvalid) /\
    fst (imageOptimizer E this req) = [] /\
    (forall mediaType,
        negotiate E req = Returns mediaType ->
        imageOptimizer E this req = ([], Rejected 400 msgQualityInvalid)) in
  (forall m, JS.parseInt qs = Some m -> 1 <= m <= 100 -> accepted m) /\
  (forall m, JS.parseInt qs = Some m -> m < 1 \/ 100 < m -> rejected) /\
  (JS.parseInt qs = None -> rejected) /\
  (qs = "0" \/ qs = "101" -> rejected) /\
  (qs = "1" -> accepted 1) /\
  (qs = "100" -> accepted 100).
Proof.
  intros Hu Hu0 Ha Hw Hw0 Hq Hq0 Hn Hn0 Hs accepted rejected.
  pose proof (validate_reaches_quality E this req u a ws qs n
                Hu Hu0 Ha Hw Hw0 Hq Hq0 Hn Hn0 Hs) as Hv.
  assert (Hacc : forall m, JS.parseInt qs = Some m -> 1 <= m <= 100 -> accepted m).
  { intros m Hm Hb. unfold accepted. rewrite Hv, Hm.
    replace ((m <? 1) || (100 <? m)) with false; [reflexivity |].
    symmetry. apply orb_false_intro; apply Z.ltb_ge; lia. }
  assert (Hrej : forall m, JS.parseInt qs = Some m -> m < 1 \/ 100 < m -> rejected).
  { intros m Hm Hb. unfold rejected. apply refusedWith_intro.
    rewrite Hv, Hm.
    replace ((m <? 1) || (100 <? m)) with true; [reflexivity |].
    symmetry. apply orb_true_intro.
    destruct Hb; [left | right]; apply Z.ltb_lt; assumption. }
  split; [exact Hacc |]. split; [exact Hrej |]. split; [| split; [| split]].
  - intros Hm. unfold rejected. apply refusedWith_intro.
    rewrite Hv, Hm. reflexivity.
  - intros [-> | ->].
    + apply (Hrej 0); [reflexivity | lia].
    + apply (Hrej 101); [reflexivity | lia].
  - intros ->. apply Hacc; [reflexivity | lia].
  - intros ->. apply Hacc; [reflexivity | lia].
Qed.

(** The four boundary requests on [https://example.com/a.jpg] at width 640. *)
Lemma C8_quality_bounds_witness :
  let E := Scenario.env WEBP [] Scenario.found in
  let this := Scenario.server [] [] in
  let req qs := Scenario.request (Single "https://example.com/a.jpg") (Single "640")
                  (Single qs) "localhost" in
  let a := {| hostname := "example.com"; href := "https://example.com/a.jpg" |} in
  imageOptimizer E this (req "0") = ([], Rejected 400 msgQualityInvalid) /\
  imageOptimizer E this (req "101") = ([], Rejected 400 msgQualityInvalid) /\
  validate E this (req "1") =
    inr {| url := "https://example.com/a.jpg"; absoluteUrl := a; w := "640"; q := "1";
           width := 640; quality := 1 |} /\
  validate E this (req "100") =
    inr {| url := "https://example.com/a.jpg"; absoluteUrl := a; w := "640"; q := "100";
           width := 640; quality := 100 |}.
Proof.
  cbv zeta.
  pose (at_q := fun qs (Hq0 : qs <> "") =>
    C8_quality_bounds (Scenario.env WEBP [] Scenario.found) (Scenario.server [] [])
      (Scenario.request (Single "https://example.com/a.jpg") (Single "640")
         (Single qs) "localhost")
      "https://example.com/a.jpg"
      {| hostname := "example.com"; href := "https://example.com/a.jpg" |}
      "640" qs 640
      eq_refl ltac:(discriminate) eq_refl eq_refl ltac:(discriminate)
      eq_refl Hq0 eq_refl ltac:(discriminate) eq_refl).
  split; [| split; [| split]].
  - destruct (at_q "0" ltac:(discriminate)) as (_ & _ & _ & H & _).
    destruct (H (or_introl eq_refl)) as (_ & _ & Hrun).
    now apply Hrun with (mediaType := WEBP).
  - destruct (at_q "101" ltac:(discriminate)) as (_ & _ & _ & H & _).
    destruct (H (or_intror eq_refl)) as (_ & _ & Hrun).
    now apply Hrun with (mediaType := WEBP).
  - apply (at_q "1" ltac:(discriminate)). reflexivity.
  - apply (at_q "100" ltac:(discriminate)). reflexivity.
Defined.

(** ** Base64 is injective on bytes *)

Lemma list_ind3 (A : Type) (P : list A -> Prop) :
  P [] ->
  (forall a, P [a]) ->
  (forall a b, P [a; b]) ->
  (forall a b c r, P r -> P (a :: b :: c :: r)) ->
  forall l, P l.
Proof.
  intros H0 H1 H2 H3. fix F 1.
  intros [| a [| b [| c r]]]; [exact H0 | apply H1 | apply H2 | apply H3, F].
Qed.

Lemma base64_index_char (i : Z) : 0 <= i < 64 -> Base64.index (Base64.char i) = i.
Proof.
  intros Hi.
  assert (H : forallb (fun k => Base64.index (Base64.char (Z.of_nat k)) =? Z.of_nat k)
                (seq 0 64) = true) by (vm_compute; reflexivity).
  rewrite forallb_forall in H.
  specialize (H (Z.to_nat i)). rewrite Z2Nat.id in H by lia.
  apply Z.eqb_eq, H. apply in_seq. lia.
Qed.

Lemma base64_char_inj (i j : Z) :
  0 <= i < 64 -> 0 <= j < 64 -> Base64.char i = Base64.char j -> i = j.
Proof.
  intros Hi Hj H. apply (f_equal Base64.index) in H.
  now rewrite !base64_index_char in H.
Qed.

Lemma base64_char_not_pad (i : Z) : 0 <= i < 64 -> Base64.char i <> "="%char.
Proof.
  intros Hi H. apply (f_equal Base64.index) in H.
  rewrite base64_index_char in H by assumption.
  change (Base64.index "=") with 64 in H. lia.
Qed.

Ltac sextet_arith := unfold isByte in *; Z.div_mod_to_equations; lia.

Ltac invert_bytes :=
  repeat match goal with
         | H : Forall isByte (_ :: _) |- _ => inversion H; subst; clear H
         | H : Forall isByte [] |- _ => clear H
         end.

Ltac pad_absurd :=
  match goal with
  | H : "="%char = Base64.char ?i |- _ =>
      exfalso; symmetry in H; revert H; apply base64_char_not_pad
  | H : Base64.char ?i = "="%char |- _ =>
      exfalso; revert H; apply base64_char_not_pad
  end.

Ltac char_eqs :=
  repeat match goal with
         | H : Base64.char ?i = Base64.char ?j |- _ =>
             apply base64_char_inj in H; [ | sextet_arith | sextet_arith ]
         end.

Lemma base64_encode_inj (x : list Z) :
  forall y, Forall isByte x -> Forall isByte y ->
            Base64.encode x = Base64.encode y -> x = y.
Proof.
  induction x as [| a | a b | a b c r IH] using list_ind3;
    intros [| a' [| b' [| c' r']]] Hx Hy Heq;
    cbn [Base64.encode] in Heq; try discriminate; try reflexivity;
    invert_bytes; injection Heq as;
    try (pad_absurd; sextet_arith).
  - char_eqs. f_equal. sextet_arith.
  - char_eqs. assert (a = a' /\ b = b') as [-> ->] by sextet_arith. reflexivity.
  - char_eqs.
    assert (a = a' /\ b = b' /\ c = c') as (-> & -> & ->) by sextet_arith.
    do 3 f_equal. apply IH; assumption.
Qed.

(** The digest of SHA-256 is a list of bytes. *)
Lemma SHA256_digest_bytes (msg : list Z) : Forall isByte (SHA256.digest msg).
Proof.
  unfold SHA256.digest.
  destruct (fold_left SHA256.compress _ _) as [[[[[[[a b] c] d] e] f] g] h].
  cbn [flat_map SHA256.be32 map app].
  repeat constructor; apply Z.mod_pos_bound; lia.
Qed.

(** ** UTF-8 is injective *)

Lemma code_range (c : ascii) : 0 <= JS.code c < 256.
Proof.
  unfold JS.code. pose proof (N_ascii_bounded c). lia.
Qed.

Lemma code_inj (c d : ascii) : JS.code c = JS.code d -> c = d.
Proof.
  unfold JS.code. intros H. apply N2Z.inj in H.
  rewrite <- (ascii_N_embedding c), <- (ascii_N_embedding d). now f_equal.
Qed.

Lemma cons_eq_inv (A : Type) (a b : A) (l l' : list A) :
  a :: l = b :: l' -> a = b /\ l = l'.
Proof. intros H. now inversion H. Qed.

Lemma utf8_inj (s : string) : forall t, JS.utf8 s = JS.utf8 t -> s = t.
Proof.
  induction s as [| c s IH]; intros [| d t]; cbn [JS.utf8]; unfold JS.utf8Char.
  - reflexivity.
  - destruct (JS.code d <? 128); discriminate.
  - destruct (JS.code c <? 128); discriminate.
  - pose proof (code_range c) as Hc. pose proof (code_range d) as Hd.
    destruct (Z.ltb_spec (JS.code c) 128) as [Lc | Lc],
             (Z.ltb_spec (JS.code d) 128) as [Ld | Ld];
      cbn [app]; intros Heq; apply cons_eq_inv in Heq as [H1 H2].
    + f_equal; [now apply code_inj | now apply IH].
    + exfalso. Z.div_mod_to_equations. lia.
    + exfalso. Z.div_mod_to_equations. lia.
    + apply cons_eq_inv in H2 as [H2 H3].
      f_equal; [apply code_inj; Z.div_mod_to_equations; lia | now apply IH].
Qed.

(** With the other three components fixed, the hash input determines [q]. *)
Lemma hashInput_inj_q (u ws q1 q2 m : string) :
  hashInput u ws q1 m = hashInput u ws q2 m -> q1 = q2.
Proof.
  unfold hashInput. intros H.
  apply app_inv_head, app_inv_head, app_inv_tail in H.
  now apply utf8_inj.
Qed.

(** ** After validation *)

Section Serve.

Context (E : Env).

(** The run of a validated request, case by case. *)
Lemma serve_cases this mediaType v :
  let cacheFile := cacheFileOf this (cacheKey E (url v) (w v) (q v) mediaType) in
  let target := href (absoluteUrl v) in
  finish (serve E this mediaType v) =
  match fileExists E cacheFile with
  | Throws e => ([FileExists cacheFile], Thrown e)
  | Returns true =>
      ([FileExists cacheFile; CreateReadStream cacheFile], ServedFromCache cacheFile)
  | Returns false =>
      match sharp E (transformer (width v) (quality v) mediaType) with
      | Throws e => ([FileExists cacheFile], Thrown e)
      | Returns pipe =>
          match fetch E target with
          | Throws e => ([FileExists cacheFile; Fetch target], Thrown e)
          | Returns r =>
              if negb (ok r) then
                ([FileExists cacheFile; Fetch target],
                 Thrown ("Unexpected status " ++ JS.toString (status r)
                         ++ " from " ++ target)%string)
              else
                match body r with
                | None =>
                    ([FileExists cacheFile; Fetch target],
                     Thrown ("No body from " ++ target)%string)
                | Some bytes =>
                    ([FileExists cacheFile; Fetch target; CreateWriteStream cacheFile],
                     ServedTransformed cacheFile (pipe bytes))
                end
          end
      end
  end.
Proof.
  intros cacheFile target.
  unfold serve, await, attempt, bind, call, ret, throw, finish.
  fold cacheFile target.
  destruct (fileExists E cacheFile) as [[|] | e]; try reflexivity.
  destruct (sharp E _) as [pipe | e]; try reflexivity.
  destruct (fetch E target) as [r | e]; try reflexivity.
  destruct (negb (ok r)); try reflexivity.
  destruct (body r); reflexivity.
Qed.

(** A cache hit: the file is piped to the response. *)
Lemma serve_hit this mediaType v :
  let cacheFile := cacheFileOf this (cacheKey E (url v) (w v) (q v) mediaType) in
  fileExists E cacheFile = Returns true ->
  finish (serve E this mediaType v) =
  ([FileExists cacheFile; CreateReadStream cacheFile], ServedFromCache cacheFile).
Proof. intros cacheFile Hhit. rewrite serve_cases. fold cacheFile. now rewrite Hhit. Qed.

(** A cache miss, a transformer that is built and a good fetch: the image
    is transformed and teed to the cache file and to the response. *)
Lemma serve_miss this mediaType v pipe r bytes :
  let cacheFile := cacheFileOf this (cacheKey E (url v) (w v) (q v) mediaType) in
  let target := href (absoluteUrl v) in
  fileExists E cacheFile = Returns false ->
  sharp E (transformer (width v) (quality v) mediaType) = Returns pipe ->
  fetch E target = Returns r ->
  ok r = true -> body r = Some bytes ->
  finish (serve E this mediaType v) =
  ([FileExists cacheFile; Fetch target; CreateWriteStream cacheFile],
   ServedTransformed cacheFile (pipe bytes)).
Proof.
  intros cacheFile target Hmiss Hsharp Hfetch Hok Hbody.
  rewrite serve_cases. fold cacheFile target.
  now rewrite Hmiss, Hsharp, Hfetch, Hok, Hbody.
Qed.

(** A cache miss, a transformer that is built and a fetch that fails. *)
Lemma serve_fetch_fails this mediaType v pipe r :
  let cacheFile := cacheFileOf this (cacheKey E (url v) (w v) (q v) mediaType) in
  let target := href (absoluteUrl v) in
  fileExists E cacheFile = Returns false ->
  sharp E (transformer (width v) (quality v) mediaType) = Returns pipe ->
  fetch E target = Returns r ->
  ok r = false \/ body r = None ->
  finish (serve E this mediaType v) =
  ([FileExists cacheFile; Fetch target],
   Thrown (if ok r
           then ("No body from " ++ target)%string
           else ("Unexpected status " ++ JS.toString (status r)
                 ++ " from " ++ target)%string)).
Proof.
  intros cacheFile target Hmiss Hsharp Hfetch Hbad.
  rewrite serve_cases. fold cacheFile target. rewrite Hmiss, Hsharp, Hfetch.
  destruct (ok r); cbn [negb].
  - destruct Hbad as [Hbad | Hbad]; [discriminate |]. rewrite Hbad. reflexivity.
  - reflexivity.
Qed.

(** The transformer of a type that is not WEBP is the resize alone. *)
Lemma transformer_not_webp (width quality : Z) (mediaType : string) :
  mediaType <> WEBP -> transformer width quality mediaType = [Resize width].
Proof.
  intros Hm. apply String.eqb_neq in Hm. unfold transformer. rewrite Hm.
  destruct (mediaType =? AVIF)%string; reflexivity.
Qed.

End Serve.

(** A 400 response is always given before any call is made: the rest of
    the handler serves, or throws. *)
Lemma rejected_before_any_call (E : Env) this req trace statusCode message :
  imageOptimizer E this req = (trace, Rejected statusCode message) ->
  statusCode = 400 /\ trace = [] /\ validate E this req = inl (Rejected 400 message).
Proof.
  intros Hrun.
  destruct (negotiate E req) as [mediaType | e] eqn:Hm.
  2:{ rewrite (imageOptimizer_negotiation_throws E this req e Hm) in Hrun.
      discriminate Hrun. }
  pose proof (validate_firstFailure E this req) as Hff.
  destruct (validate E this req) as [o | v] eqn:Hv.
  - destruct Hff as [m [-> _]].
    rewrite (imageOptimizer_rejected E this req mediaType _ Hm Hv) in Hrun.
    inversion Hrun; subst. auto.
  - exfalso. rewrite (imageOptimizer_validated E this req mediaType v Hm Hv) in Hrun.
    rewrite serve_cases in Hrun.
    destruct (fileExists E _) as [[|] | err]; try discriminate Hrun.
    destruct (sharp E _) as [pipe | err]; try discriminate Hrun.
    destruct (fetch E _) as [r | err]; try discriminate Hrun.
    destruct (negb (ok r)); try discriminate Hrun.
    destruct (body r); discriminate Hrun.
Qed.

(** ** C9: a fetch that fails *)

(** C9.  Take a request that passes validation (the negotiation of line 31
    having returned) and misses the cache, and a fetch that answers with a
    non-success status or without a body.  The handler ends in an error and
    opens no write stream on the cache file.  Once the transformer is
    built (lines 123-135 come before the fetch and may throw themselves),
    the calls are the cache lookup and the fetch, and the error names the
    status (or the missing body) and the source URL. *)
Theorem C9_fetch_failure_leaves_no_cache_file
    (E : Env) (this : Server) (req : Request) (mediaType : string)
    (v : Validated) (r : FetchResponse) :
  negotiate E req = Returns mediaType ->
  validate E this req = inr v ->
  let cacheFile := cacheFileOf this (derivedKey E req v) in
  let target := href (absoluteUrl v) in
  fileExists E cacheFile = Returns false ->
  fetch E target = Returns r ->
  ok r = false \/ body r = None ->
  (exists error, snd (imageOptimizer E this req) = Thrown error) /\
  (forall path, ~ In (CreateWriteStream path) (fst (imageOptimizer E this req))) /\
  (forall pipe,
      sharp E (transformer (width v) (quality v) mediaType) = Returns pipe ->
      exists message,
        imageOptimizer E this req = ([FileExists cacheFile; Fetch target], Thrown message) /\
        (ok r = false ->
         message = ("Unexpected status " ++ JS.toString (status r)
                    ++ " from " ++ target)%string) /\
        (ok r = true -> message = ("No body from " ++ target)%string)).
Proof.
  intros Hm Hv cacheFile target Hmiss Hfetch Hbad.
  assert (Hkey : derivedKey E req v = cacheKey E (url v) (w v) (q v) mediaType).
  { unfold derivedKey. now rewrite (negotiated_returns E req mediaType Hm). }
  unfold cacheFile in *. rewrite Hkey in *.
  rewrite (imageOptimizer_validated E this req mediaType v Hm Hv).
  destruct (sharp E (transformer (width v) (quality v) mediaType)) as [pipe | e] eqn:Hsharp.
  - rewrite (serve_fetch_fails E this mediaType v pipe r Hmiss Hsharp Hfetch Hbad).
    split; [eexists; reflexivity |]. split.
    + intros path [H | [H | []]]; discriminate.
    + intros pipe' _. eexists. split; [reflexivity |].
      split; intros ->; reflexivity.
  - rewrite serve_cases, Hmiss, Hsharp.
    split; [eexists; reflexivity |]. split.
    + intros path [H | []]; discriminate.
    + intros pipe' Habsurd. discriminate Habsurd.
Qed.

(** The fifth end-to-end scenario of the specification: the upstream
    answers 404. *)
Lemma C9_fetch_failure_leaves_no_cache_file_witness :
  exists trace message,
    imageOptimizer (Scenario.env WEBP [] Scenario.notFound) (Scenario.server [] [])
      (Scenario.request (Single "https://example.com/b.jpg") (Single "640") (Single "75")
         "localhost")
    = (trace, Thrown message) /\
    (forall path, ~ In (CreateWriteStream path) trace) /\
    message = "Unexpected status 404 from https://example.com/b.jpg".
Proof.
  pose (E := Scenario.env WEBP [] Scenario.notFound).
  pose (this := Scenario.server [] []).
  pose (req := Scenario.request (Single "https://example.com/b.jpg") (Single "640")
                 (Single "75") "localhost").
  destruct (C9_fetch_failure_leaves_no_cache_file E this req WEBP
              {| url := "https://example.com/b.jpg";
                 absoluteUrl := {| hostname := "example.com";
                                   href := "https://example.com/b.jpg" |};
                 w := "640"; q := "75"; width := 640; quality := 75 |}
              {| ok := false; status := 404; body := Some [] |}
              eq_refl eq_refl eq_refl eq_refl (or_introl eq_refl))
    as (_ & Hnone & Hbuilt).
  destruct (Hbuilt (Scenario.codec [Resize 640; Webp 75]) eq_refl)
    as (message & Hrun & Hstatus & _).
  exists (fst (imageOptimizer E this req)), message.
  split; [| split].
  - fold E this req. rewrite Hrun. reflexivity.
  - exact Hnone.
  - exact (Hstatus eq_refl).
Defined.

(** ** C2: the cache key and the Host header *)

(** C2, as amended.  The cache key is computed from the [url] parameter as
    written, not from the resolved absolute URL, and the Host header takes
    no part in it: two requests with the same [url], [w], [q] and Accept
    header derive the same cache key whatever their Host headers, also when
    the same relative url resolves to two different absolute URLs. *)
Theorem C2_key_independent_of_host
    (E : Env) (this : Server) (req1 req2 : Request) (v1 v2 : Validated) :
  query_url req1 = query_url req2 ->
  query_w req1 = query_w req2 ->
  query_q req1 = query_q req2 ->
  header_accept req1 = header_accept req2 ->
  validate E this req1 = inr v1 ->
  validate E this req2 = inr v2 ->
  derivedKey E req1 v1 = derivedKey E req2 v2.
Proof.
  intros Hu Hw Hq Ha Hv1 Hv2.
  apply validate_inr in Hv1, Hv2.
  destruct Hv1 as (Hu1 & _ & _ & Hw1 & _ & Hq1 & _).
  destruct Hv2 as (Hu2 & _ & _ & Hw2 & _ & Hq2 & _).
  unfold derivedKey, negotiated, negotiate. rewrite Ha.
  congruence.
Qed.

(** The request for [/x.jpg] sent with two Host headers. *)
Lemma C2_key_independent_of_host_witness :
  let E := Scenario.env WEBP [] Scenario.found in
  let req host := Scenario.request (Single "/x.jpg") (Single "640") (Single "75") host in
  let v host :=
    {| url := "/x.jpg";
       absoluteUrl := {| hostname := host; href := ("https://" ++ host ++ "/x.jpg")%string |};
       w := "640"; q := "75"; width := 640; quality := 75 |} in
  derivedKey E (req "alpha.example") (v "alpha.example")
  = derivedKey E (req "beta.example") (v "beta.example").
Proof.
  cbv zeta.
  apply (C2_key_independent_of_host (Scenario.env WEBP [] Scenario.found)
           (Scenario.server [] [])); reflexivity.
Defined.

(** C2 as stated fails: [/x.jpg] with Host [alpha.example] and with Host
    [beta.example] resolves to two different absolute URLs, and the two
    requests derive the same cache key. *)
Lemma C2_relative_url_two_hosts_one_key :
  let E := Scenario.env WEBP [] Scenario.found in
  let this := Scenario.server [] [] in
  let req host := Scenario.request (Single "/x.jpg") (Single "640") (Single "75") host in
  let v host :=
    {| url := "/x.jpg";
       absoluteUrl := {| hostname := host; href := ("https://" ++ host ++ "/x.jpg")%string |};
       w := "640"; q := "75"; width := 640; quality := 75 |} in
  validate E this (req "alpha.example") = inr (v "alpha.example") /\
  validate E this (req "beta.example") = inr (v "beta.example") /\
  href (absoluteUrl (v "alpha.example")) <> href (absoluteUrl (v "beta.example")) /\
  derivedKey E (req "alpha.example") (v "alpha.example")
  = derivedKey E (req "beta.example") (v "beta.example").
Proof.
  cbv zeta. split; [vm_compute; reflexivity |]. split; [vm_compute; reflexivity |].
  split; [discriminate | vm_compute; reflexivity].
Qed.

(** ** C3: the cache key as a function of its four inputs *)

(** C3, as amended.  The cache key is a function of the tuple (url, w, q,
    media type): identical tuples give identical keys.  The four strings
    are hashed one after the other with nothing between them, so two tuples
    with the same concatenation give the same key, also when the tuples
    differ.  When the hash does not collide on the two inputs (and its
    digests are bytes), the keys are equal exactly when the concatenations
    are. *)
Theorem C3_key_is_function_of_concatenation
    (E : Env) (u1 w1 q1 m1 u2 w2 q2 m2 : string) :
  let input1 := hashInput u1 w1 q1 m1 in
  let input2 := hashInput u2 w2 q2 m2 in
  ((u1, w1, q1, m1) = (u2, w2, q2, m2) ->
   cacheKey E u1 w1 q1 m1 = cacheKey E u2 w2 q2 m2) /\
  (input1 = input2 -> cacheKey E u1 w1 q1 m1 = cacheKey E u2 w2 q2 m2) /\
  (Forall isByte (sha256 E input1) -> Forall isByte (sha256 E input2) ->
   (sha256 E input1 = sha256 E input2 -> input1 = input2) ->
   (cacheKey E u1 w1 q1 m1 = cacheKey E u2 w2 q2 m2 <-> input1 = input2)).
Proof.
  intros input1 input2. split; [| split].
  - intros H. inversion H. reflexivity.
  - intros H. unfold cacheKey. fold input1 input2. now rewrite H.
  - intros Hb1 Hb2 Hfree. unfold cacheKey. fold input1 input2. split.
    + intros H. apply Hfree. now apply base64_encode_inj.
    + intros ->. reflexivity.
Qed.

(** Qualities 75 and 80 of the same image: the inputs differ and so do the
    keys; SHA-256 does not collide on them. *)
Lemma C3_key_is_function_of_concatenation_witness :
  let E := Scenario.env WEBP [] Scenario.found in
  let u := "https://example.com/a.jpg" in
  cacheKey E u "640" "75" WEBP = cacheKey E u "640" "80" WEBP
  <-> hashInput u "640" "75" WEBP = hashInput u "640" "80" WEBP.
Proof.
  cbv zeta.
  apply (C3_key_is_function_of_concatenation (Scenario.env WEBP [] Scenario.found)
           "https://example.com/a.jpg" "640" "75" WEBP
           "https://example.com/a.jpg" "640" "80" WEBP).
  - apply SHA256_digest_bytes.
  - apply SHA256_digest_bytes.
  - intros H. vm_compute in H. discriminate H.
Defined.

(** C3 as stated fails: width 1 with quality 23 and width 12 with quality 3
    of the same image are two valid requests with distinct tuples, the same
    hash input, and the same cache key. *)
Lemma C3_distinct_tuples_one_key :
  let E := Scenario.env WEBP [] Scenario.found in
  let this := Scenario.server [] [] in
  let u := "https://example.com/a.jpg" in
  let a := {| hostname := "example.com"; href := u |} in
  validate E this (Scenario.request (Single u) (Single "1") (Single "23") "localhost")
  = inr {| url := u; absoluteUrl := a; w := "1"; q := "23"; width := 1; quality := 23 |} /\
  validate E this (Scenario.request (Single u) (Single "12") (Single "3") "localhost")
  = inr {| url := u; absoluteUrl := a; w := "12"; q := "3"; width := 12; quality := 3 |} /\
  (u, "1", "23", WEBP) <> (u, "12", "3", WEBP) /\
  hashInput u "1" "23" WEBP = hashInput u "12" "3" WEBP /\
  cacheKey E u "1" "23" WEBP = cacheKey E u "12" "3" WEBP.
Proof.
  cbv zeta. split; [vm_compute; reflexivity |]. split; [vm_compute; reflexivity |].
  split; [discriminate |]. split; vm_compute; reflexivity.
Qed.

(** ** C4: the cache key as a file name *)

(** C4 fails on the first end-to-end scenario of the specification.  The
    base64 text of the digest contains a slash, so the cache file is not a
    file of [cache/images] but of a directory below it. *)
Theorem C4_cache_key_with_path_separator :
  let E := Scenario.env WEBP [] Scenario.found in
  let this := Scenario.server [] [] in
  let req := Scenario.request (Single "https://example.com/a.jpg") (Single "640")
               (Single "75") "localhost" in
  let key := "PXBJD2k1ZREo6zTbK+DT7TUoh+A/Jq1pj2YbFvHOyOQ=" in
  let cacheFile := ("/app/.next/cache/images/" ++ key)%string in
  cacheKey E "https://example.com/a.jpg" "640" "75" WEBP = key /\
  existsb Path.isSep (list_ascii_of_string key) = true /\
  imageOptimizer E this req =
    ([FileExists cacheFile; Fetch "https://example.com/a.jpg"; CreateWriteStream cacheFile],
     ServedTransformed cacheFile (Scenario.codec [Resize 640; Webp 75] Scenario.image)) /\
  Path.join [distDir this; "cache"; "images"] = "/app/.next/cache/images" /\
  Path.dirname cacheFile = "/app/.next/cache/images/PXBJD2k1ZREo6zTbK+DT7TUoh+A".
Proof.
  cbv zeta. repeat (apply conj); vm_compute; reflexivity.
Qed.

(** ** C5: the width check *)

(** C5 fails on a negative width.  [parseInt] of [-5] is the number -5,
    which is neither zero nor [NaN]: with no width allow-list, validation
    passes with width -5 and the handler goes on to the cache lookup. *)
Theorem C5_negative_width_passes_validation :
  let E := Scenario.env WEBP [] Scenario.found in
  let this := Scenario.server [] [] in
  let req := Scenario.request (Single "https://example.com/a.jpg") (Single "-5")
               (Single "75") "localhost" in
  JS.parseInt "-5" = Some (-5) /\
  validate E this req =
    inr {| url := "https://example.com/a.jpg";
           absoluteUrl := {| hostname := "example.com"; href := "https://example.com/a.jpg" |};
           w := "-5"; q := "75"; width := -5; quality := 75 |} /\
  hd_error (fst (imageOptimizer E this req)) =
    Some (FileExists "/app/.next/cache/images/vfDcEbW/orVbDG7Nb8wwP97gLSYrC58impIuOg1Bo3E=").
Proof.
  cbv zeta. repeat (apply conj); vm_compute; reflexivity.
Qed.

(** ** C10: quality in the key but not in the output *)

(** C10.  Take two requests that differ only in [q], both valid, with a
    negotiated media type other than WEBP, both missing the cache, a
    transformer that is built for the resize to the width alone, and a
    fetch that succeeds.  Both are served the same image, the fetched bytes
    through that transformer, in which the quality takes no part, and each
    writes it to its own cache file: the two cache keys differ, as long as
    the hash does not collide on the two inputs (and its digests are
    bytes). *)
Theorem C10_same_image_under_two_keys
    (E : Env) (this : Server) (req1 req2 : Request) (v1 v2 : Validated)
    (mediaType : string) (pipe : list Z -> list Z)
    (r : FetchResponse) (bytes : list Z) :
  query_url req1 = query_url req2 ->
  query_w req1 = query_w req2 ->
  header_host req1 = header_host req2 ->
  header_accept req1 = header_accept req2 ->
  validate E this req1 = inr v1 ->
  validate E this req2 = inr v2 ->
  q v1 <> q v2 ->
  negotiate E req1 = Returns mediaType ->
  mediaType <> WEBP ->
  sharp E [Resize (width v1)] = Returns pipe ->
  let key1 := derivedKey E req1 v1 in
  let key2 := derivedKey E req2 v2 in
  let input1 := hashInput (url v1) (w v1) (q v1) mediaType in
  let input2 := hashInput (url v2) (w v2) (q v2) mediaType in
  let target := href (absoluteUrl v1) in
  fileExists E (cacheFileOf this key1) = Returns false ->
  fileExists E (cacheFileOf this key2) = Returns false ->
  fetch E target = Returns r -> ok r = true -> body r = Some bytes ->
  Forall isByte (sha256 E input1) -> Forall isByte (sha256 E input2) ->
  (sha256 E input1 = sha256 E input2 -> input1 = input2) ->
  let image := pipe bytes in
  imageOptimizer E this req1 =
    ([FileExists (cacheFileOf this key1); Fetch target;
      CreateWriteStream (cacheFileOf this key1)],
     ServedTransformed (cacheFileOf this key1) image) /\
  imageOptimizer E this req2 =
    ([FileExists (cacheFileOf this key2); Fetch target;
      CreateWriteStream (cacheFileOf this key2)],
     ServedTransformed (cacheFileOf this key2) image) /\
  key1 <> key2.
Proof.
  intros Hu Hw Hh Ha Hv1 Hv2 Hq Hneg1 Hm Hsharp key1 key2 input1 input2 target
    Hmiss1 Hmiss2 Hfetch Hok Hbody Hb1 Hb2 Hfree image.
  pose proof (validate_inr E this req1 v1 Hv1)
    as (Hu1 & _ & Hr1 & Hw1 & _ & _ & _ & Hn1 & _).
  pose proof (validate_inr E this req2 v2 Hv2)
    as (Hu2 & _ & Hr2 & Hw2 & _ & _ & _ & Hn2 & _).
  assert (Eu : url v1 = url v2) by congruence.
  assert (Ew : w v1 = w v2) by congruence.
  assert (Eabs : absoluteUrl v1 = absoluteUrl v2).
  { rewrite Hh, Eu in Hr1. congruence. }
  assert (Ewidth : width v1 = width v2) by congruence.
  assert (Hneg2 : negotiate E req2 = Returns mediaType).
  { unfold negotiate in *. now rewrite <- Ha. }
  assert (Hk1 : key1 = cacheKey E (url v1) (w v1) (q v1) mediaType).
  { unfold key1, derivedKey. now rewrite (negotiated_returns E req1 mediaType Hneg1). }
  assert (Hk2 : key2 = cacheKey E (url v2) (w v2) (q v2) mediaType).
  { unfold key2, derivedKey. now rewrite (negotiated_returns E req2 mediaType Hneg2). }
  split; [| split].
  - rewrite (imageOptimizer_validated E this req1 mediaType v1 Hneg1 Hv1).
    rewrite Hk1 in Hmiss1 |- *.
    apply serve_miss with (r := r); try assumption.
    now rewrite transformer_not_webp.
  - rewrite (imageOptimizer_validated E this req2 mediaType v2 Hneg2 Hv2).
    rewrite Hk2 in Hmiss2 |- *. unfold target in *. rewrite Eabs in Hfetch |- *.
    apply serve_miss with (r := r); try assumption.
    rewrite transformer_not_webp by assumption. now rewrite <- Ewidth.
  - rewrite Hk1, Hk2. intros Hkey. apply Hq.
    unfold cacheKey in Hkey.
    apply base64_encode_inj in Hkey; [| assumption | assumption].
    apply Hfree in Hkey. unfold input1, input2 in Hkey.
    rewrite <- Eu, <- Ew in Hkey.
    now apply hashInput_inj_q in Hkey.
Qed.

(** Qualities 75 and 80 of the same image at width 640, for a client that
    accepts [image/png] only, so that no media type is negotiated. *)
Lemma C10_same_image_under_two_keys_witness :
  let E := Scenario.env "" [] Scenario.found in
  let this := Scenario.server [] [] in
  let req qs := Scenario.requestAccepting "image/png"
                  (Single "https://example.com/a.jpg") (Single "640") (Single qs)
                  "localhost" in
  let v qs n :=
    {| url := "https://example.com/a.jpg";
       absoluteUrl := {| hostname := "example.com"; href := "https://example.com/a.jpg" |};
       w := "640"; q := qs; width := 640; quality := n |} in
  let file1 := "/app/.next/cache/images/tvVOFTgG+Kz5q4cBHss2HCQyxdHG/IGIF/5yMYc2/rc=" in
  let file2 := "/app/.next/cache/images/qjbZuNlyTQl1cIVuVuHh1kDaxtMh8h6SQwfbkAAcuPM=" in
  let image := Scenario.codec [Resize 640] Scenario.image in
  imageOptimizer E this (req "75") =
    ([FileExists file1; Fetch "https://example.com/a.jpg"; CreateWriteStream file1],
     ServedTransformed file1 image) /\
  imageOptimizer E this (req "80") =
    ([FileExists file2; Fetch "https://example.com/a.jpg"; CreateWriteStream file2],
     ServedTransformed file2 image) /\
  derivedKey E (req "75") (v "75" 75) <> derivedKey E (req "80") (v "80" 80).
Proof.
  intros E this req v file1 file2 image.
  assert (Hfree : sha256 E (hashInput (url (v "75" 75)) (w (v "75" 75)) (q (v "75" 75)) "")
                  = sha256 E (hashInput (url (v "80" 80)) (w (v "80" 80)) (q (v "80" 80)) "")
                  -> hashInput (url (v "75" 75)) (w (v "75" 75)) (q (v "75" 75)) ""
                     = hashInput (url (v "80" 80)) (w (v "80" 80)) (q (v "80" 80)) "").
  { intros Hd. vm_compute in Hd. discriminate Hd. }
  destruct (C10_same_image_under_two_keys
              E this (req "75") (req "80") (v "75" 75) (v "80" 80)
              "" (Scenario.codec [Resize 640])
              {| ok := true; status := 200; body := Some Scenario.image |}
              Scenario.image
              eq_refl eq_refl eq_refl eq_refl eq_refl eq_refl
              ltac:(discriminate) eq_refl ltac:(discriminate) eq_refl
              eq_refl eq_refl eq_refl eq_refl eq_refl
              (SHA256_digest_bytes _) (SHA256_digest_bytes _) Hfree)
    as (H1 & H2 & H3).
  split; [| split].
  - rewrite H1. vm_compute. reflexivity.
  - rewrite H2. vm_compute. reflexivity.
  - exact H3.
Defined.

(** ** Test vectors and the end-to-end scenarios *)

(** The messages of the 400 responses, character for character (character
    034 is the double quote). *)
Example messages_are_the_literals :
  let dq := "034"%char in
  msgUrlRequired = String dq ("url" ++ String dq " parameter is required")%string /\
  msgUrlArray = String dq ("url" ++ String dq " parameter cannot be an array")%string /\
  msgUrlNotAllowed = String dq ("url" ++ String dq " parameter is not allowed")%string /\
  msgUrlInvalid = String dq ("url" ++ String dq " parameter is invalid")%string /\
  msgWidthRequired
  = String dq ("w" ++ String dq " parameter (width) is required")%string /\
  msgWidthArray
  = String dq ("w" ++ String dq " parameter (width) cannot be an array")%string /\
  msgWidthInvalid
  = String dq ("w" ++ String dq " parameter (width) must be a number greater than 0")%string /\
  msgWidthNotAllowed 500
  = String dq ("w" ++ String dq " parameter (width) of 500 is not allowed")%string /\
  msgQualityRequired
  = String dq ("q" ++ String dq " parameter (quality) is required")%string /\
  msgQualityArray
  = String dq ("q" ++ String dq " parameter (quality) cannot be an array")%string /\
  msgQualityInvalid
  = String dq ("q" ++ String dq " parameter (quality) must be a number between 1 and 100")%string.
Proof. cbv zeta. repeat (apply conj); reflexivity. Qed.

(** A width of -5 passes validation and stops the run where the
    transformer is built, after the cache lookup and before any fetch. *)
Example scenario_negative_width :
  let cacheFile := "/app/.next/cache/images/vfDcEbW/orVbDG7Nb8wwP97gLSYrC58impIuOg1Bo3E=" in
  imageOptimizer (Scenario.env WEBP [] Scenario.found) (Scenario.server [] [])
    (Scenario.request (Single "https://example.com/a.jpg") (Single "-5") (Single "75")
       "localhost")
  = ([FileExists cacheFile], Thrown "Expected positive integer for width").
Proof. vm_compute. reflexivity. Qed.

(** An Accept header that cannot be read stops the run before the checks. *)
Example scenario_invalid_accept :
  imageOptimizer Faults.invalidAccept (Scenario.server [] [])
    (Scenario.requestAccepting "image/webp;q=" (Single "https://example.com/a.jpg")
       (Single "640") (Single "75") "localhost")
  = ([], Thrown "Invalid accept header").
Proof. vm_compute. reflexivity. Qed.

Example parseInt_decimal : JS.parseInt "640" = Some 640.
Proof. reflexivity. Qed.

Example parseInt_prefix : JS.parseInt "  -5px" = Some (-5).
Proof. reflexivity. Qed.

Example parseInt_hex : JS.parseInt "0x1F" = Some 31.
Proof. reflexivity. Qed.

Example parseInt_NaN : JS.parseInt "abc" = None /\ JS.parseInt "-" = None.
Proof. split; reflexivity. Qed.

(** FIPS 180-4: the round constants and the digest of [abc]. *)
Example SHA256_constants :
  hd 0 SHA256.K = 0x428a2f98 /\ last SHA256.K 0 = 0xc67178f2
  /\ List.length SHA256.K = 64%nat.
Proof. vm_compute. repeat (apply conj); reflexivity. Qed.

Example SHA256_abc :
  Base64.encode (SHA256.digest (JS.utf8 "abc"))
  = "ungWv48Bz+pBQUDeXa4iI7ADYaOWF3qctBD/YfIAFa0=".
Proof. vm_compute. reflexivity. Qed.

(** A message of 81 bytes, which takes two blocks. *)
Example SHA256_two_blocks :
  Base64.encode
    (SHA256.digest
       (JS.utf8 "https://example.com/a.jpg64075image/webp0123456789012345678901234567890123456789"))
  = "+4Sgdu1Jr7+K8D+ymk8bXR2ffwlb8mH6zWHfYhBt12I=".
Proof. vm_compute. reflexivity. Qed.

(** RFC 4648, section 10. *)
Example Base64_vectors :
  Base64.encode (JS.utf8 "f") = "Zg==" /\
  Base64.encode (JS.utf8 "fo") = "Zm8=" /\
  Base64.encode (JS.utf8 "foo") = "Zm9v" /\
  Base64.encode (JS.utf8 "foobar") = "Zm9vYmFy".
Proof. vm_compute. repeat (apply conj); reflexivity. Qed.

Example Path_join :
  Path.join ["/app/.next"; "cache"; "images"; "abc="] = "/app/.next/cache/images/abc=" /\
  Path.join ["../x/./y/../"; "cache"; "images"; "abc="] = "../x/cache/images/abc=" /\
  Path.join [""; ""] = ".".
Proof. vm_compute. repeat (apply conj); reflexivity. Qed.

Example Path_dirname :
  Path.dirname "/app/.next/cache/images/abc=" = "/app/.next/cache/images" /\
  Path.dirname "/a" = "/" /\ Path.dirname "a" = "." /\ Path.dirname "a/b/" = "a".
Proof. vm_compute. repeat (apply conj); reflexivity. Qed.

Example URL_new_vectors :
  WHATWG.URL_new "https://example.com" None
  = Some {| hostname := "example.com"; href := "https://example.com/" |} /\
  WHATWG.URL_new "/x.jpg" None = None /\
  WHATWG.URL_new "/x.jpg" (Some "https://localhost")
  = Some {| hostname := "localhost"; href := "https://localhost/x.jpg" |}.
Proof. vm_compute. repeat (apply conj); reflexivity. Qed.

(** Scenario 2: the cache file exists; it is served and nothing is fetched. *)
Example scenario_cache_hit :
  let cacheFile := "/app/.next/cache/images/PXBJD2k1ZREo6zTbK+DT7TUoh+A/Jq1pj2YbFvHOyOQ=" in
  imageOptimizer (Scenario.env WEBP [cacheFile] Scenario.found) (Scenario.server [] [])
    (Scenario.request (Single "https://example.com/a.jpg") (Single "640") (Single "75")
       "localhost")
  = ([FileExists cacheFile; CreateReadStream cacheFile], ServedFromCache cacheFile).
Proof. vm_compute. reflexivity. Qed.

(** Scenario 4: width 500 is a number but is not in the allow-list. *)
Example scenario_width_not_allowed :
  imageOptimizer (Scenario.env WEBP [] Scenario.found)
    (Scenario.server [320; 640; 1024] [])
    (Scenario.request (Single "https://example.com/a.jpg") (Single "500") (Single "75")
       "localhost")
  = ([], Rejected 400 (msgWidthNotAllowed 500)).
Proof. vm_compute. reflexivity. Qed.

(** A parameter given twice is an array. *)
Example scenario_array :
  imageOptimizer (Scenario.env WEBP [] Scenario.found) (Scenario.server [] [])
    (Scenario.request (Single "https://example.com/a.jpg") (Multiple ["640"; "320"])
       (Single "75") "localhost")
  = ([], Rejected 400 msgWidthArray).
Proof. vm_compute. reflexivity. Qed.

(** * Further properties of the handler *)

Lemma includesNum_In (l : list Z) (x : Z) : JS.includesNum l x = true <-> In x l.
Proof.
  unfold JS.includesNum. rewrite existsb_exists. split.
  - intros [y [Hy Heq]]. apply Z.eqb_eq in Heq. now subst.
  - intros H. exists x. split; [assumption | apply Z.eqb_refl].
Qed.

Lemma includesStr_In (l : list string) (x : string) :
  JS.includesStr l x = true <-> In x l.
Proof.
  unfold JS.includesStr. rewrite existsb_exists. split.
  - intros [y [Hy Heq]]. apply String.eqb_eq in Heq. now subst.
  - intros H. exists x. split; [assumption | apply String.eqb_refl].
Qed.

(** The allow-list test [0 < length && !includes] in terms of membership. *)
Lemma allowed_num (l : list Z) (x : Z) :
  (0 <? Z.of_nat (List.length l)) && negb (JS.includesNum l x) = false <->
  l = [] \/ In x l.
Proof.
  rewrite <- includesNum_In. destruct l as [| y l]; cbn [List.length].
  - cbn. intuition.
  - replace (0 <? Z.of_nat (S (List.length l))) with true
      by (symmetry; apply Z.ltb_lt; lia).
    cbn [andb]. destruct (JS.includesNum (y :: l) x); cbn; intuition discriminate.
Qed.

Lemma allowed_str (l : list string) (x : string) :
  (0 <? Z.of_nat (List.length l)) && negb (JS.includesStr l x) = false <->
  l = [] \/ In x l.
Proof.
  rewrite <- includesStr_In. destruct l as [| y l]; cbn [List.length].
  - cbn. intuition.
  - replace (0 <? Z.of_nat (S (List.length l))) with true
      by (symmetry; apply Z.ltb_lt; lia).
    cbn [andb]. destruct (JS.includesStr (y :: l) x); cbn; intuition discriminate.
Qed.

(** ** X1: a parameter given more than once *)

(** X1.  A parameter that arrives as an array is refused by the validator
    with its own message: [url] whatever the other parameters; [w] when
    the checks on [url] pass; [q] when the checks on [url] pass and [w] is
    a single value, whether or not that value is a number.  No call is
    made, and the run is this 400 response when the negotiation of line 31
    returns. *)
Theorem X1_parameter_given_as_array (E : Env) (this : Server) (req : Request) :
  (forall l, query_url req = Multiple l -> refusedWith E this req msgUrlArray) /\
  (forall u a l,
      query_url req = Single u -> u <> "" ->
      resolveUrl E this (header_host req) u = inr a ->
      query_w req = Multiple l ->
      refusedWith E this req msgWidthArray) /\
  (forall u a ws l,
      query_url req = Single u -> u <> "" ->
      resolveUrl E this (header_host req) u = inr a ->
      query_w req = Single ws -> ws <> "" ->
      query_q req = Multiple l ->
      refusedWith E this req msgQualityArray).
Proof.
  split; [| split].
  - intros l Hu. apply refusedWith_intro.
    unfold validate, andThen. rewrite Hu. reflexivity.
  - intros u a l Hu Hu0 Ha Hw. apply refusedWith_intro.
    unfold validate, andThen.
    rewrite Hu, requireSingle_single, Ha, Hw by assumption. reflexivity.
  - intros u a ws l Hu Hu0 Ha Hw Hw0 Hq. apply refusedWith_intro.
    unfold validate, andThen.
    rewrite Hu, Hw, !requireSingle_single, Ha, Hq by assumption. reflexivity.
Qed.

(** [q] given twice with a width that is not a number. *)
Lemma X1_parameter_given_as_array_witness :
  imageOptimizer (Scenario.env WEBP [] Scenario.found) (Scenario.server [] [])
    (Scenario.request (Single "https://example.com/a.jpg") (Single "wide")
       (Multiple ["75"; "80"]) "localhost")
  = ([], Rejected 400 msgQualityArray).
Proof.
  apply (proj2 (proj2 (X1_parameter_given_as_array
                         (Scenario.env WEBP [] Scenario.found) (Scenario.server [] [])
                         (Scenario.request (Single "https://example.com/a.jpg")
                            (Single "wide") (Multiple ["75"; "80"]) "localhost")))
           "https://example.com/a.jpg"
           {| hostname := "example.com"; href := "https://example.com/a.jpg" |}
           "wide" ["75"; "80"]
           eq_refl ltac:(discriminate) eq_refl eq_refl ltac:(discriminate) eq_refl)
    with (mediaType := WEBP).
  reflexivity.
Defined.

(** ** X2: a url that does not resolve *)

(** X2.  When the [url] parameter parses neither as an absolute URL nor
    against [https://] followed by the Host header, the validator refuses
    the request with the message that the url parameter is invalid,
    whatever the allow-list.  No call is made, and the run is this 400
    response when the negotiation of line 31 returns. *)
Theorem X2_unresolvable_url (E : Env) (this : Server) (req : Request) (u : string) :
  query_url req = Single u -> u <> "" ->
  URL_new E u None = None ->
  URL_new E u (Some (hostBase (header_host req))) = None ->
  resolvedUrl E (header_host req) u = None /\
  refusedWith E this req msgUrlInvalid.
Proof.
  intros Hu Hu0 Habs Hrel. split.
  - unfold resolvedUrl. now rewrite Habs.
  - apply refusedWith_intro. unfold validate, andThen.
    rewrite Hu, requireSingle_single by assumption.
    unfold resolveUrl. rewrite Habs, Hrel. reflexivity.
Qed.

(** [https://] has a scheme and no host. *)
Lemma X2_unresolvable_url_witness :
  imageOptimizer (Scenario.env WEBP [] Scenario.found)
    (Scenario.server [] ["example.com"])
    (Scenario.request (Single "https://") (Single "640") (Single "75") "localhost")
  = ([], Rejected 400 msgUrlInvalid).
Proof.
  apply (proj2 (X2_unresolvable_url
                  (Scenario.env WEBP [] Scenario.found)
                  (Scenario.server [] ["example.com"])
                  (Scenario.request (Single "https://") (Single "640") (Single "75")
                     "localhost")
                  "https://" eq_refl ltac:(discriminate) eq_refl eq_refl))
    with (mediaType := WEBP).
  reflexivity.
Defined.

(** ** X3: the width allow-list *)

(** X3.  With a non-empty list of sizes, a request whose [w] parses to a
    non-zero number that is not in the list is refused by the validator
    with the message that prints this number, once [url] has passed and
    [q] is a single value: the value of [q] is not looked at.  The number
    is taken below 2^53 in magnitude, where the numbers of the program
    hold every integer and print it in full.  No call is made, and the
    run is this 400 response when the negotiation of line 31 returns. *)
Theorem X3_width_outside_allow_list
    (E : Env) (this : Server) (req : Request) (u : string) (a : URL)
    (ws qs : string) (n : Z) :
  query_url req = Single u -> u <> "" ->
  resolveUrl E this (header_host req) u = inr a ->
  query_w req = Single ws -> ws <> "" ->
  query_q req = Single qs -> qs <> "" ->
  JS.parseInt ws = Some n -> n <> 0 ->
  - 2 ^ 53 < n < 2 ^ 53 ->
  sizes this <> [] -> ~ In n (sizes this) ->
  refusedWith E this req (msgWidthNotAllowed n).
Proof.
  intros Hu Hu0 Ha Hw Hw0 Hq Hq0 Hn Hn0 _ Hs Hin.
  apply refusedWith_intro. unfold validate, andThen.
  rewrite Hu, Hw, Hq, !requireSingle_single, Ha, Hn by assumption.
  destruct (Z.eqb_spec n 0) as [| _]; [contradiction |].
  unfold pass at 1.
  destruct ((0 <? Z.of_nat (List.length (sizes this)))
            && negb (JS.includesNum (sizes this) n)) eqn:Hallow; [reflexivity |].
  apply allowed_num in Hallow. tauto.
Qed.

(** The fourth end-to-end scenario, with a quality that is not a number. *)
Lemma X3_width_outside_allow_list_witness :
  imageOptimizer (Scenario.env WEBP [] Scenario.found)
    (Scenario.server [320; 640; 1024] [])
    (Scenario.request (Single "https://example.com/a.jpg") (Single "500")
       (Single "best") "localhost")
  = ([], Rejected 400 (msgWidthNotAllowed 500)).
Proof.
  assert (Hout : ~ In 500 [320; 640; 1024])
    by (intros [H | [H | [H | []]]]; discriminate).
  apply (X3_width_outside_allow_list
           (Scenario.env WEBP [] Scenario.found) (Scenario.server [320; 640; 1024] [])
           (Scenario.request (Single "https://example.com/a.jpg") (Single "500")
              (Single "best") "localhost")
           "https://example.com/a.jpg"
           {| hostname := "example.com"; href := "https://example.com/a.jpg" |}
           "500" "best" 500
           eq_refl ltac:(discriminate) eq_refl eq_refl ltac:(discriminate)
           eq_refl ltac:(discriminate) eq_refl ltac:(discriminate)
           ltac:(lia) ltac:(discriminate) Hout)
    with (mediaType := WEBP).
  reflexivity.
Defined.

(** ** X4: what a validated request guarantees *)

(** X4.  A request that passes validation has single values for [url], [w]
    and [q]; its absolute URL is the one the [url] parameter resolves to;
    its width is [parseInt(w)], is not zero, and is in the list of sizes
    when that list is not empty; its quality is [parseInt(q)] and lies
    between 1 and 100; and when [url] parses as an absolute URL, its
    hostname is in the list of domains unless that list is empty. *)
Theorem X4_validated_request_invariant
    (E : Env) (this : Server) (req : Request) (v : Validated) :
  validate E this req = inr v ->
  query_url req = Single (url v) /\
  query_w req = Single (w v) /\
  query_q req = Single (q v) /\
  resolvedUrl E (header_host req) (url v) = Some (absoluteUrl v) /\
  JS.parseInt (w v) = Some (width v) /\ width v <> 0 /\
  (sizes this = [] \/ In (width v) (sizes this)) /\
  JS.parseInt (q v) = Some (quality v) /\ 1 <= quality v <= 100 /\
  (forall parsed, URL_new E (url v) None = Some parsed ->
                  parsed = absoluteUrl v /\
                  (domains this = [] \/ In (hostname parsed) (domains this))).
Proof.
  intros Hv. apply validate_inr in Hv.
  destruct Hv as (Hu & _ & Ha & Hw & _ & Hq & _ & Hn & Hn0 & Hs & Hm & Hb).
  apply allowed_num in Hs.
  repeat (split; [assumption |]).
  split.
  { unfold resolveUrl in Ha. unfold resolvedUrl.
    destruct (URL_new E (url v) None) as [p |].
    - destruct (_ && _); [discriminate | now inversion Ha].
    - destruct (URL_new E (url v) (Some _)); [now inversion Ha | discriminate]. }
  repeat (split; [assumption |]).
  intros parsed Hp. unfold resolveUrl in Ha. rewrite Hp in Ha.
  destruct ((0 <? Z.of_nat (List.length (domains this)))
            && negb (JS.includesStr (domains this) (hostname parsed))) eqn:Hd;
    [discriminate |].
  apply allowed_str in Hd. split; [now inversion Ha | assumption].
Qed.

Lemma X4_validated_request_invariant_witness :
  let E := Scenario.env WEBP [] Scenario.found in
  let this := Scenario.server [320; 640] ["example.com"] in
  let v := {| url := "https://example.com/a.jpg";
              absoluteUrl := {| hostname := "example.com";
                                href := "https://example.com/a.jpg" |};
              w := "640"; q := "75"; width := 640; quality := 75 |} in
  (sizes this = [] \/ In (width v) (sizes this)) /\ 1 <= quality v <= 100.
Proof.
  intros E this v.
  pose proof (X4_validated_request_invariant E this
                (Scenario.request (Single "https://example.com/a.jpg") (Single "640")
                   (Single "75") "localhost") v eq_refl) as H.
  split; [apply H | apply H].
Defined.

(** ** X5: a cache hit *)

(** X5.  When a validated request, whose negotiation has returned, finds
    its cache file, the file is piped to the response: the calls are the
    lookup and the read stream on that file, and there is no fetch and no
    write. *)
Theorem X5_cache_hit_reads_the_file
    (E : Env) (this : Server) (req : Request) (mediaType : string) (v : Validated) :
  negotiate E req = Returns mediaType ->
  validate E this req = inr v ->
  let cacheFile := cacheFileOf this (cacheKey E (url v) (w v) (q v) mediaType) in
  fileExists E cacheFile = Returns true ->
  imageOptimizer E this req =
  ([FileExists cacheFile; CreateReadStream cacheFile], ServedFromCache cacheFile).
Proof.
  intros Hm Hv cacheFile Hhit.
  rewrite (imageOptimizer_validated E this req mediaType v Hm Hv).
  apply serve_hit. exact Hhit.
Qed.

(** The second end-to-end scenario. *)
Lemma X5_cache_hit_reads_the_file_witness :
  let cacheFile := "/app/.next/cache/images/PXBJD2k1ZREo6zTbK+DT7TUoh+A/Jq1pj2YbFvHOyOQ=" in
  let E := Scenario.env WEBP [cacheFile] Scenario.found in
  let this := Scenario.server [] [] in
  let req := Scenario.request (Single "https://example.com/a.jpg") (Single "640")
               (Single "75") "localhost" in
  imageOptimizer E this req =
  ([FileExists cacheFile; CreateReadStream cacheFile], ServedFromCache cacheFile).
Proof.
  intros cacheFile E this req.
  pose (v := {| url := "https://example.com/a.jpg";
                absoluteUrl := {| hostname := "example.com";
                                  href := "https://example.com/a.jpg" |};
                w := "640"; q := "75"; width := 640; quality := 75 |}).
  assert (Hhit : fileExists E (cacheFileOf this (cacheKey E (url v) (w v) (q v) WEBP))
                 = Returns true)
    by (vm_compute; reflexivity).
  rewrite (X5_cache_hit_reads_the_file E this req WEBP v eq_refl eq_refl Hhit).
  vm_compute. reflexivity.
Defined.

(** ** X6: the shape of every run *)

(** X6.  Every run of the handler has one of seven shapes: the error of a
    negotiation that throws, with no call; a 400 response with no call; a
    cache lookup that throws; a lookup and a read stream on the same file;
    a lookup and the error of the transformer that cannot be built; a
    lookup and a fetch that ends in an error; a lookup, a fetch and a
    write stream on the file that was looked up.  So the status of a
    rejection is always 400, the cache is looked up before anything is
    fetched, at most one fetch is made, nothing is fetched on a hit, and
    the cache file is written only after a fetch. *)
Theorem X6_run_shapes (E : Env) (this : Server) (req : Request) :
  RunShape (fst (imageOptimizer E this req)) (snd (imageOptimizer E this req)).
Proof.
  destruct (negotiate E req) as [mediaType | e] eqn:Hm.
  2:{ rewrite (imageOptimizer_negotiation_throws E this req e Hm). constructor. }
  pose proof (validate_firstFailure E this req) as Hff.
  destruct (validate E this req) as [o | v] eqn:Hv.
  - destruct Hff as [m [-> _]].
    rewrite (imageOptimizer_rejected E this req mediaType _ Hm Hv). constructor.
  - rewrite (imageOptimizer_validated E this req mediaType v Hm Hv), serve_cases.
    destruct (fileExists E _) as [[|] | e]; try (cbn [fst snd]; constructor).
    destruct (sharp E _) as [pipe | e]; [| apply RunTransformerThrows].
    destruct (fetch E _) as [r | e]; try constructor.
    destruct (negb (ok r)); try constructor.
    destruct (body r); constructor.
Qed.

(** ** X7: errors of the collaborators *)

(** X7.  An error thrown by the negotiation of line 31 is thrown by the
    handler before any check or call.  For a validated request, an error
    thrown by the cache lookup is thrown by the handler, and nothing is
    fetched; after a cache miss, an error thrown while the transformer is
    built is thrown by the handler, and nothing is fetched; once the
    transformer is built, an error thrown by the fetch is thrown by the
    handler, and no write stream is opened. *)
Theorem X7_collaborator_errors_propagate
    (E : Env) (this : Server) (req : Request) :
  (forall e, negotiate E req = Throws e ->
             imageOptimizer E this req = ([], Thrown e)) /\
  (forall mediaType v,
      negotiate E req = Returns mediaType ->
      validate E this req = inr v ->
      let cacheFile := cacheFileOf this (cacheKey E (url v) (w v) (q v) mediaType) in
      let ops := transformer (width v) (quality v) mediaType in
      let target := href (absoluteUrl v) in
      (forall e, fileExists E cacheFile = Throws e ->
                 imageOptimizer E this req = ([FileExists cacheFile], Thrown e)) /\
      (forall e, fileExists E cacheFile = Returns false ->
                 sharp E ops = Throws e ->
                 imageOptimizer E this req = ([FileExists cacheFile], Thrown e)) /\
      (forall pipe e,
          fileExists E cacheFile = Returns false ->
          sharp E ops = Returns pipe ->
          fetch E target = Throws e ->
          imageOptimizer E this req =
          ([FileExists cacheFile; Fetch target], Thrown e))).
Proof.
  split; [intros e; apply imageOptimizer_negotiation_throws |].
  intros mediaType v Hm Hv cacheFile ops target.
  rewrite (imageOptimizer_validated E this req mediaType v Hm Hv), serve_cases.
  fold cacheFile ops target.
  split; [| split].
  - intros e ->. reflexivity.
  - intros e -> ->. reflexivity.
  - intros pipe e -> -> ->. reflexivity.
Qed.

(** An Accept header that cannot be read, a cache that cannot be read, a
    width of -5 and an upstream that cannot be reached. *)
Lemma X7_collaborator_errors_propagate_witness :
  let this := Scenario.server [] [] in
  let req ws := Scenario.request (Single "https://example.com/a.jpg") (Single ws)
                  (Single "75") "localhost" in
  let cacheFile := "/app/.next/cache/images/PXBJD2k1ZREo6zTbK+DT7TUoh+A/Jq1pj2YbFvHOyOQ=" in
  let cacheFile' := "/app/.next/cache/images/vfDcEbW/orVbDG7Nb8wwP97gLSYrC58impIuOg1Bo3E=" in
  imageOptimizer Faults.invalidAccept this (req "640")
  = ([], Thrown "Invalid accept header") /\
  imageOptimizer (Faults.brokenDisk Scenario.found) this (req "640")
  = ([FileExists cacheFile], Thrown "EACCES") /\
  imageOptimizer (Scenario.env WEBP [] Scenario.found) this (req "-5")
  = ([FileExists cacheFile'], Thrown "Expected positive integer for width") /\
  imageOptimizer (Scenario.env WEBP [] Faults.unreachable) this (req "640")
  = ([FileExists cacheFile; Fetch "https://example.com/a.jpg"], Thrown "ECONNREFUSED").
Proof.
  intros this req cacheFile cacheFile'.
  pose (v := fun ws n =>
               {| url := "https://example.com/a.jpg";
                  absoluteUrl := {| hostname := "example.com";
                                    href := "https://example.com/a.jpg" |};
                  w := ws; q := "75"; width := n; quality := 75 |}).
  split; [| split; [| split]].
  - apply (proj1 (X7_collaborator_errors_propagate Faults.invalidAccept this (req "640"))).
    reflexivity.
  - rewrite (proj1 (proj2 (X7_collaborator_errors_propagate
                             (Faults.brokenDisk Scenario.found) this (req "640"))
                      WEBP (v "640" 640) eq_refl eq_refl)
               "EACCES" eq_refl).
    vm_compute. reflexivity.
  - rewrite (proj1 (proj2 (proj2 (X7_collaborator_errors_propagate
                                    (Scenario.env WEBP [] Scenario.found) this (req "-5"))
                             WEBP (v "-5" (-5)) eq_refl eq_refl))
               "Expected positive integer for width" eq_refl eq_refl).
    vm_compute. reflexivity.
  - rewrite (proj2 (proj2 (proj2 (X7_collaborator_errors_propagate
                                    (Scenario.env WEBP [] Faults.unreachable) this (req "640"))
                             WEBP (v "640" 640) eq_refl eq_refl))
               (Scenario.codec [Resize 640; Webp 75]) "ECONNREFUSED"
               eq_refl eq_refl eq_refl).
    vm_compute. reflexivity.
Defined.

(** ** X8: the transform when WEBP is negotiated *)

(** X8.  For a validated request that misses the cache, when the negotiated
    type is WEBP, the transformer is built for a resize to the width
    followed by a WEBP encoding at the quality, and the fetch succeeds with
    a body, the image is the fetched bytes through that transformer; the
    same image goes to the cache file and to the response, and the source
    is fetched from the href of the absolute URL. *)
Theorem X8_webp_resize_then_encode
    (E : Env) (this : Server) (req : Request) (v : Validated)
    (pipe : list Z -> list Z) (r : FetchResponse) (bytes : list Z) :
  negotiate E req = Returns WEBP ->
  validate E this req = inr v ->
  let cacheFile := cacheFileOf this (cacheKey E (url v) (w v) (q v) WEBP) in
  let target := href (absoluteUrl v) in
  fileExists E cacheFile = Returns false ->
  sharp E [Resize (width v); Webp (quality v)] = Returns pipe ->
  fetch E target = Returns r -> ok r = true -> body r = Some bytes ->
  imageOptimizer E this req =
  ([FileExists cacheFile; Fetch target; CreateWriteStream cacheFile],
   ServedTransformed cacheFile (pipe bytes)).
Proof.
  intros Hm Hv cacheFile target Hmiss Hsharp Hfetch Hok Hbody.
  rewrite (imageOptimizer_validated E this req WEBP v Hm Hv).
  now apply serve_miss with (r := r).
Qed.

(** The first end-to-end scenario. *)
Lemma X8_webp_resize_then_encode_witness :
  let E := Scenario.env WEBP [] Scenario.found in
  let this := Scenario.server [] [] in
  let req := Scenario.request (Single "https://example.com/a.jpg") (Single "640")
               (Single "75") "localhost" in
  let cacheFile := "/app/.next/cache/images/PXBJD2k1ZREo6zTbK+DT7TUoh+A/Jq1pj2YbFvHOyOQ=" in
  imageOptimizer E this req =
  ([FileExists cacheFile; Fetch "https://example.com/a.jpg"; CreateWriteStream cacheFile],
   ServedTransformed cacheFile (Scenario.codec [Resize 640; Webp 75] Scenario.image)).
Proof.
  intros E this req cacheFile.
  pose (v := {| url := "https://example.com/a.jpg";
                absoluteUrl := {| hostname := "example.com";
                                  href := "https://example.com/a.jpg" |};
                w := "640"; q := "75"; width := 640; quality := 75 |}).
  rewrite (X8_webp_resize_then_encode E this req v
             (Scenario.codec [Resize 640; Webp 75])
             {| ok := true; status := 200; body := Some Scenario.image |}
             Scenario.image eq_refl eq_refl eq_refl eq_refl eq_refl eq_refl eq_refl).
  vm_compute. reflexivity.
Defined.

(** ** X9: the request that follows a miss *)

(** Validation looks at the environment through the URL parser only. *)
Lemma validate_same_functions (E E' : Env) this req :
  sameFunctions E E' -> validate E' this req = validate E this req.
Proof.
  intros (Hurl & _ & _). unfold validate, andThen.
  destruct (requireSingle (query_url req) _ _) as [o | u]; [reflexivity |].
  replace (resolveUrl E' this (header_host req) u)
    with (resolveUrl E this (header_host req) u)
    by (unfold resolveUrl; now rewrite !Hurl).
  reflexivity.
Qed.

Lemma negotiate_same_functions (E E' : Env) req :
  sameFunctions E E' -> negotiate E' req = negotiate E req.
Proof. intros (_ & Hacc & _). unfold negotiate. apply Hacc. Qed.

Lemma derivedKey_same_functions (E E' : Env) req v :
  sameFunctions E E' -> derivedKey E' req v = derivedKey E req v.
Proof.
  intros Hsame. unfold derivedKey, cacheKey, negotiated.
  rewrite (negotiate_same_functions E E' req Hsame).
  destruct Hsame as (_ & _ & Hsha). now rewrite Hsha.
Qed.

(** A run that ends with a transformed image is a validated miss. *)
Lemma served_transformed_inv (E : Env) this req trace cacheFile image :
  imageOptimizer E this req = (trace, ServedTransformed cacheFile image) ->
  exists mediaType v,
    negotiate E req = Returns mediaType /\
    validate E this req = inr v /\
    cacheFile = cacheFileOf this (derivedKey E req v) /\
    trace = [FileExists cacheFile; Fetch (href (absoluteUrl v));
             CreateWriteStream cacheFile].
Proof.
  intros Hrun.
  destruct (negotiate E req) as [mediaType | e] eqn:Hm.
  2:{ rewrite (imageOptimizer_negotiation_throws E this req e Hm) in Hrun.
      discriminate Hrun. }
  pose proof (validate_firstFailure E this req) as Hff.
  destruct (validate E this req) as [o | v] eqn:Hv.
  - destruct Hff as [m [-> _]].
    rewrite (imageOptimizer_rejected E this req mediaType _ Hm Hv) in Hrun.
    discriminate Hrun.
  - exists mediaType, v. split; [reflexivity |]. split; [reflexivity |].
    rewrite (imageOptimizer_validated E this req mediaType v Hm Hv), serve_cases in Hrun.
    unfold derivedKey. rewrite (negotiated_returns E req mediaType Hm).
    destruct (fileExists E _) as [[|] | e]; try discriminate Hrun.
    destruct (sharp E _) as [pipe | e]; try discriminate Hrun.
    destruct (fetch E _) as [r | e]; try discriminate Hrun.
    destruct (negb (ok r)); try discriminate Hrun.
    destruct (body r); try discriminate Hrun.
    inversion Hrun; subst. split; reflexivity.
Qed.

(** X9.  When a run has served a transformed image, it has opened a write
    stream on a cache file; once that file exists, the same request (with
    the same URL parser, negotiator and hash, whatever the upstream has
    become) is served from that very file, and nothing is fetched. *)
Theorem X9_repeat_request_served_from_cache
    (E E' : Env) (this : Server) (req : Request)
    (trace : list Event) (cacheFile : string) (image : list Z) :
  imageOptimizer E this req = (trace, ServedTransformed cacheFile image) ->
  sameFunctions E E' ->
  fileExists E' cacheFile = Returns true ->
  In (CreateWriteStream cacheFile) trace /\
  imageOptimizer E' this req =
  ([FileExists cacheFile; CreateReadStream cacheFile], ServedFromCache cacheFile).
Proof.
  intros Hrun Hsame Hexists.
  destruct (served_transformed_inv E this req trace cacheFile image Hrun)
    as (mediaType & v & Hm & Hv & Hfile & Htrace).
  split.
  - rewrite Htrace. right. right. left. reflexivity.
  - assert (Hm' : negotiate E' req = Returns mediaType)
      by now rewrite (negotiate_same_functions E E' req Hsame).
    assert (Hv' : validate E' this req = inr v)
      by now rewrite (validate_same_functions E E' this req Hsame).
    rewrite (imageOptimizer_validated E' this req mediaType v Hm' Hv').
    assert (Hfile' : cacheFileOf this (cacheKey E' (url v) (w v) (q v) mediaType)
                     = cacheFile).
    { rewrite Hfile, <- (derivedKey_same_functions E E' req v Hsame).
      unfold derivedKey. now rewrite (negotiated_returns E' req mediaType Hm'). }
    rewrite <- Hfile' in Hexists |- *.
    apply serve_hit. exact Hexists.
Qed.

(** The first and the second end-to-end scenarios, one after the other;
    by then the upstream answers 404. *)
Lemma X9_repeat_request_served_from_cache_witness :
  let cacheFile := "/app/.next/cache/images/PXBJD2k1ZREo6zTbK+DT7TUoh+A/Jq1pj2YbFvHOyOQ=" in
  let this := Scenario.server [] [] in
  let req := Scenario.request (Single "https://example.com/a.jpg") (Single "640")
               (Single "75") "localhost" in
  imageOptimizer (Scenario.env WEBP [cacheFile] Scenario.notFound) this req =
  ([FileExists cacheFile; CreateReadStream cacheFile], ServedFromCache cacheFile).
Proof.
  intros cacheFile this req.
  apply (X9_repeat_request_served_from_cache
           (Scenario.env WEBP [] Scenario.found)
           (Scenario.env WEBP [cacheFile] Scenario.notFound)
           this req
           [FileExists cacheFile; Fetch "https://example.com/a.jpg";
            CreateWriteStream cacheFile]
           cacheFile (Scenario.codec [Resize 640; Webp 75] Scenario.image)).
  - vm_compute. reflexivity.
  - repeat (apply conj); intros; reflexivity.
  - vm_compute. reflexivity.
Defined.

(** ** X10: a change of one input of the key *)

Lemma hashInput_inj_url (u1 u2 ws qs m : string) :
  hashInput u1 ws qs m = hashInput u2 ws qs m -> u1 = u2.
Proof.
  unfold hashInput. intros H. apply app_inv_tail in H. now apply utf8_inj.
Qed.

Lemma hashInput_inj_w (u w1 w2 qs m : string) :
  hashInput u w1 qs m = hashInput u w2 qs m -> w1 = w2.
Proof.
  unfold hashInput. intros H. apply app_inv_head, app_inv_tail in H.
  now apply utf8_inj.
Qed.

Lemma hashInput_inj_mediaType (u ws qs m1 m2 : string) :
  hashInput u ws qs m1 = hashInput u ws qs m2 -> m1 = m2.
Proof.
  unfold hashInput. intros H. do 3 apply app_inv_head in H. now apply utf8_inj.
Qed.

(** X10.  Two key tuples that agree on three of the four components (url,
    w, q, media type) and differ on the fourth have different hash inputs;
    their cache keys differ as long as the hash does not collide on these
    two inputs (and its digests are bytes). *)
Theorem X10_one_component_changes_the_key
    (E : Env) (u1 w1 q1 m1 u2 w2 q2 m2 : string) :
  (w1 = w2 /\ q1 = q2 /\ m1 = m2) \/ (u1 = u2 /\ q1 = q2 /\ m1 = m2)
  \/ (u1 = u2 /\ w1 = w2 /\ m1 = m2) \/ (u1 = u2 /\ w1 = w2 /\ q1 = q2) ->
  (u1, w1, q1, m1) <> (u2, w2, q2, m2) ->
  let input1 := hashInput u1 w1 q1 m1 in
  let input2 := hashInput u2 w2 q2 m2 in
  input1 <> input2 /\
  (Forall isByte (sha256 E input1) -> Forall isByte (sha256 E input2) ->
   (sha256 E input1 = sha256 E input2 -> input1 = input2) ->
   cacheKey E u1 w1 q1 m1 <> cacheKey E u2 w2 q2 m2).
Proof.
  intros Hthree Hdiff input1 input2.
  assert (Hin : input1 <> input2).
  { intros Heq. apply Hdiff. unfold input1, input2 in Heq.
    destruct Hthree as [(-> & -> & ->) | [(-> & -> & ->) | [(-> & -> & ->) | (-> & -> & ->)]]].
    - now rewrite (hashInput_inj_url _ _ _ _ _ Heq).
    - now rewrite (hashInput_inj_w _ _ _ _ _ Heq).
    - now rewrite (hashInput_inj_q _ _ _ _ _ Heq).
    - now rewrite (hashInput_inj_mediaType _ _ _ _ _ Heq). }
  split; [exact Hin |].
  intros Hb1 Hb2 Hfree Hkey. apply Hin, Hfree.
  unfold cacheKey in Hkey. now apply base64_encode_inj in Hkey.
Qed.

(** The same image and parameters with and without WEBP negotiated. *)
Lemma X10_one_component_changes_the_key_witness :
  let E := Scenario.env WEBP [] Scenario.found in
  let u := "https://example.com/a.jpg" in
  hashInput u "640" "75" WEBP <> hashInput u "640" "75" "" /\
  cacheKey E u "640" "75" WEBP <> cacheKey E u "640" "75" "".
Proof.
  intros E u.
  destruct (X10_one_component_changes_the_key E u "640" "75" WEBP u "640" "75" ""
              (or_intror (or_intror (or_intror (conj eq_refl (conj eq_refl eq_refl)))))
              ltac:(discriminate)) as [Hin Hkey].
  split; [exact Hin |].
  apply Hkey.
  - apply SHA256_digest_bytes.
  - apply SHA256_digest_bytes.
  - intros Hd. vm_compute in Hd. discriminate Hd.
Defined.

(** ** Strings and the shape of a base64 text *)

Lemma string_app_assoc (a b c : string) : ((a ++ b) ++ c = a ++ (b ++ c))%string.
Proof. induction a as [| x a IH]; cbn; [reflexivity | now rewrite IH]. Qed.

Lemma string_app_empty (a : string) : (a ++ "")%string = a.
Proof. induction a as [| x a IH]; cbn; [reflexivity | now rewrite IH]. Qed.

Lemma string_app_length (a b : string) :
  String.length (a ++ b) = (String.length a + String.length b)%nat.
Proof. induction a as [| x a IH]; cbn; [reflexivity | now rewrite IH]. Qed.

Lemma chars_app (a b : string) :
  list_ascii_of_string (a ++ b) = list_ascii_of_string a ++ list_ascii_of_string b.
Proof. induction a as [| x a IH]; cbn; [reflexivity | now rewrite IH]. Qed.

Lemma base64_length (bs : list Z) :
  String.length (Base64.encode bs) = (4 * ((List.length bs + 2) / 3))%nat.
Proof.
  induction bs as [| a | a b | a b c r IH] using list_ind3; try reflexivity.
  cbn [Base64.encode String.length List.length]. rewrite IH.
  replace (S (S (S (List.length r))) + 2)%nat with (List.length r + 2 + 1 * 3)%nat by lia.
  rewrite Nat.div_add by lia. lia.
Qed.

Lemma base64_char_in_alphabet (i : Z) :
  0 <= i < 64 -> In (Base64.char i) (list_ascii_of_string Base64.alphabet).
Proof.
  intros Hi.
  assert (H : forallb (fun k => existsb (Ascii.eqb (Base64.char (Z.of_nat k)))
                                  (list_ascii_of_string Base64.alphabet))
                (seq 0 64) = true) by (vm_compute; reflexivity).
  rewrite forallb_forall in H.
  specialize (H (Z.to_nat i)). rewrite Z2Nat.id in H by lia.
  assert (Hin : In (Z.to_nat i) (seq 0 64)) by (apply in_seq; lia).
  apply H, existsb_exists in Hin. destruct Hin as [c [Hc Heq]].
  apply Ascii.eqb_eq in Heq. now subst.
Qed.

(** Every character of the base64 text of bytes is in the alphabet or is
    the padding. *)
Lemma base64_chars (bs : list Z) :
  Forall isByte bs ->
  Forall (fun c => In c (list_ascii_of_string Base64.alphabet) \/ c = "="%char)
    (list_ascii_of_string (Base64.encode bs)).
Proof.
  induction bs as [| a | a b | a b c r IH] using list_ind3; intros Hb;
    cbn [Base64.encode list_ascii_of_string]; invert_bytes;
    repeat (apply Forall_cons;
            [first [ right; reflexivity
                   | left; apply base64_char_in_alphabet; sextet_arith ] |]);
    [apply Forall_nil .. | apply IH; assumption].
Qed.

(** The base64 text of a number of bytes that is not a multiple of three
    ends with the padding. *)
Lemma base64_padded (bs : list Z) :
  (List.length bs mod 3 <> 0)%nat ->
  exists s, Base64.encode bs = (s ++ "=")%string.
Proof.
  induction bs as [| a | a b | a b c r IH] using list_ind3; intros Hlen.
  - now contradiction Hlen.
  - eexists (String _ (String _ "=")). reflexivity.
  - eexists (String _ (String _ (String _ ""))). reflexivity.
  - cbn [List.length] in Hlen.
    replace (S (S (S (List.length r)))) with (List.length r + 1 * 3)%nat in Hlen by lia.
    rewrite Nat.Div0.mod_add in Hlen.
    destruct (IH Hlen) as [s Hs].
    exists (String (Base64.char (a / 4))
              (String (Base64.char (a mod 4 * 16 + b / 16))
                 (String (Base64.char (b mod 16 * 4 + c / 64))
                    (String (Base64.char (c mod 64)) s)))).
    cbn [Base64.encode]. rewrite Hs. reflexivity.
Qed.

(** The characters and the end of a key made from a digest of 32 bytes. *)
Lemma cacheKey_chars_and_padding (E : Env) (u ws qs m : string) :
  List.length (sha256 E (hashInput u ws qs m)) = 32%nat ->
  Forall isByte (sha256 E (hashInput u ws qs m)) ->
  Forall (fun c => In c (list_ascii_of_string Base64.alphabet) \/ c = "="%char)
    (list_ascii_of_string (cacheKey E u ws qs m)) /\
  exists s, cacheKey E u ws qs m = (s ++ "=")%string.
Proof.
  intros Hlen Hbytes. unfold cacheKey. split.
  - now apply base64_chars.
  - apply base64_padded. rewrite Hlen. cbn. discriminate.
Qed.

(** ** X11: the form of the cache key *)

(** X11.  When the hash gives 32 bytes, as SHA-256 does, the cache key is a
    text of 44 characters, each a letter, a digit, [+], [/] or [=], and
    the last one is [=]. *)
Theorem X11_cache_key_form (E : Env) (u ws qs m : string) :
  List.length (sha256 E (hashInput u ws qs m)) = 32%nat ->
  Forall isByte (sha256 E (hashInput u ws qs m)) ->
  String.length (cacheKey E u ws qs m) = 44%nat /\
  Forall (fun c => In c (list_ascii_of_string Base64.alphabet) \/ c = "="%char)
    (list_ascii_of_string (cacheKey E u ws qs m)) /\
  exists s, cacheKey E u ws qs m = (s ++ "=")%string.
Proof.
  intros Hlen Hbytes. split.
  - unfold cacheKey. rewrite base64_length, Hlen. reflexivity.
  - now apply cacheKey_chars_and_padding.
Qed.

Lemma SHA256_digest_length (msg : list Z) : List.length (SHA256.digest msg) = 32%nat.
Proof.
  unfold SHA256.digest.
  destruct (fold_left SHA256.compress _ _) as [[[[[[[a b] c] d] e] f] g] h].
  reflexivity.
Qed.

Lemma X11_cache_key_form_witness :
  let key := cacheKey (Scenario.env WEBP [] Scenario.found)
               "https://example.com/a.jpg" "640" "75" WEBP in
  String.length key = 44%nat /\
  Forall (fun c => In c (list_ascii_of_string Base64.alphabet) \/ c = "="%char)
    (list_ascii_of_string key) /\
  exists s, key = (s ++ "=")%string.
Proof.
  intros key.
  apply (X11_cache_key_form (Scenario.env WEBP [] Scenario.found)
           "https://example.com/a.jpg" "640" "75" WEBP).
  - apply SHA256_digest_length.
  - apply SHA256_digest_bytes.
Defined.

(** ** Paths *)

Lemma segments_app (a : string) : forall cur b,
  Path.segments cur (a ++ String "/" b) = Path.segments cur a ++ Path.segments "" b.
Proof.
  induction a as [| c a IH]; intros cur b; cbn [append Path.segments].
  - reflexivity.
  - destruct (Path.isSep c); [cbn [app]; f_equal |]; apply IH.
Qed.

Lemma normalizeString_app (al : bool) (xs : list string) : forall acc ys,
  Path.normalizeString al acc (xs ++ ys)
  = Path.normalizeString al (rev (Path.normalizeString al acc xs)) ys.
Proof.
  induction xs as [| seg xs IH]; intros acc ys; cbn [app Path.normalizeString].
  - now rewrite rev_involutive.
  - destruct ((seg =? "")%string || (seg =? ".")%string); [apply IH |].
    destruct (seg =? "..")%string; [| apply IH].
    destruct acc as [| top acc']; [apply IH |].
    destruct (top =? "..")%string; apply IH.
Qed.

Lemma normalizeString_plain (al : bool) (ys : list string) : forall acc,
  Forall (fun s => s <> "." /\ s <> "..") ys ->
  Path.normalizeString al acc ys
  = rev acc ++ filter (fun s => negb (s =? "")%string) ys.
Proof.
  induction ys as [| seg ys IH]; intros acc Hplain; cbn [Path.normalizeString filter].
  - now rewrite app_nil_r.
  - inversion Hplain as [| ? ? [Hdot Hdots] Hrest]; subst.
    apply String.eqb_neq in Hdot, Hdots. rewrite Hdot, Hdots, orb_false_r.
    destruct (seg =? "")%string; cbn [negb].
    + now apply IH.
    + rewrite IH by assumption. cbn [rev]. now rewrite <- app_assoc.
Qed.

Lemma concat_app (sep : string) (l1 l2 : list string) :
  l1 <> [] -> l2 <> [] ->
  String.concat sep (l1 ++ l2)
  = (String.concat sep l1 ++ sep ++ String.concat sep l2)%string.
Proof.
  intros H1 H2. induction l1 as [| x l1 IH]; [contradiction |].
  destruct l1 as [| y l1].
  - destruct l2 as [| z l2]; [contradiction | reflexivity].
  - change (String.concat sep ((x :: y :: l1) ++ l2))
      with (x ++ sep ++ String.concat sep ((y :: l1) ++ l2))%string.
    rewrite IH by discriminate.
    change (String.concat sep (x :: y :: l1))
      with (x ++ sep ++ String.concat sep (y :: l1))%string.
    now rewrite !string_app_assoc.
Qed.

Lemma concat_last (sep x : string) (l : list string) :
  exists s, String.concat sep (l ++ [x]) = (s ++ x)%string.
Proof.
  destruct l as [| y l].
  - exists "". reflexivity.
  - rewrite concat_app by discriminate.
    exists (String.concat sep (y :: l) ++ sep)%string.
    cbn [String.concat]. now rewrite string_app_assoc.
Qed.

Lemma app_not_empty_r (s t : string) : t <> "" -> (s ++ t)%string <> "".
Proof.
  intros Ht H. apply (f_equal String.length) in H.
  rewrite string_app_length in H. destruct t; [contradiction | cbn in H; lia].
Qed.

Lemma app_not_empty_l (s t : string) : s <> "" -> (s ++ t)%string <> "".
Proof. destruct s; [contradiction | discriminate]. Qed.

Lemma startsWithSep_app (s t : string) :
  s <> "" -> Path.startsWithSep (s ++ t) = Path.startsWithSep s.
Proof. destruct s; [contradiction | reflexivity]. Qed.

Lemma endsWithSep_app (s t : string) :
  t <> "" -> Path.endsWithSep (s ++ t) = Path.endsWithSep t.
Proof.
  intros Ht. induction s as [| c s IH]; [reflexivity |].
  cbn [append Path.endsWithSep].
  destruct (s ++ t)%string eqn:Hst; [| exact IH].
  exfalso. now apply (app_not_empty_r s t).
Qed.

(** The characters of the segments come from the path, and none of them is
    a separator. *)
Lemma segments_chars (P : ascii -> Prop) (p : string) : forall cur,
  Forall (fun c => P c /\ Path.isSep c = false) (list_ascii_of_string cur) ->
  Forall P (list_ascii_of_string p) ->
  Forall (fun s => Forall (fun c => P c /\ Path.isSep c = false)
                     (list_ascii_of_string s))
    (Path.segments cur p).
Proof.
  induction p as [| c p IH]; intros cur Hcur Hp; cbn [Path.segments].
  - now constructor.
  - cbn [list_ascii_of_string] in Hp. inversion Hp as [| ? ? Hc Hrest]; subst.
    destruct (Path.isSep c) eqn:Hsep.
    + constructor; [assumption | apply IH; [constructor | assumption]].
    + apply IH; [| assumption].
      rewrite chars_app. apply Forall_app. split; [assumption |].
      cbn. constructor; [split; assumption | constructor].
Qed.

(** A character that is not a separator is in one of the segments. *)
Lemma segments_cover (c : ascii) (p : string) : forall cur,
  Path.isSep c = false ->
  In c (list_ascii_of_string cur ++ list_ascii_of_string p) ->
  exists s, In s (Path.segments cur p) /\ In c (list_ascii_of_string s).
Proof.
  induction p as [| d p IH]; intros cur Hc Hin; cbn [Path.segments].
  - exists cur. split; [now left |]. cbn in Hin. now rewrite app_nil_r in Hin.
  - cbn [list_ascii_of_string] in Hin.
    destruct (Path.isSep d) eqn:Hd.
    + apply in_app_or in Hin. destruct Hin as [Hin | [Heq | Hin]].
      * exists cur. split; [now left | assumption].
      * subst d. congruence.
      * destruct (IH "" Hc Hin) as [s [Hs Hcs]]. exists s. split; [now right | assumption].
    + apply IH; [assumption |].
      rewrite chars_app. cbn [list_ascii_of_string].
      rewrite <- app_assoc. exact Hin.
Qed.

(** A path continued by a separator and a relative path with no dot
    segment normalizes to the normalized path followed by the names of the
    relative path. *)
Lemma normalize_extend (p key last : string) (D : list string) :
  Path.segments "" p = D ++ [last] ->
  last <> "" -> last <> "." -> last <> ".." ->
  Path.endsWithSep p = false ->
  Forall (fun c => c <> "."%char) (list_ascii_of_string key) ->
  (exists s, key = (s ++ "=")%string) ->
  Path.normalize (p ++ String "/" key)
  = (Path.normalize p ++ "/" ++ String.concat "/" (nonEmptySegments key))%string.
Proof.
  intros Hsegs Hl0 Hl1 Hl2 Hend Hdots [s0 Hkey].
  assert (Hp : p <> "").
  { intros ->. cbn in Hsegs. destruct D as [| ? [| ? ?]]; inversion Hsegs; congruence. }
  assert (Hkey0 : key <> "") by (rewrite Hkey; now apply app_not_empty_r).
  assert (Hkend : Path.endsWithSep key = false)
    by (rewrite Hkey, endsWithSep_app by discriminate; reflexivity).
  (* the segments of the key *)
  assert (Hplain : Forall (fun s => s <> "." /\ s <> "..") (Path.segments "" key)).
  { pose proof (segments_chars (fun c => c <> "."%char) key "" (Forall_nil _) Hdots) as H.
    eapply Forall_impl; [| exact H]. cbn beta. intros s Hs. split; intros ->.
    - inversion Hs as [| ? ? [Hc _] _]. now apply Hc.
    - inversion Hs as [| ? ? [Hc _] _]. now apply Hc. }
  assert (Hnames : nonEmptySegments key <> []).
  { destruct (segments_cover "=" key "" eq_refl) as [s [Hs Hcs]].
    - cbn [list_ascii_of_string app]. rewrite Hkey, chars_app.
      apply in_or_app. right. now left.
    - intros Hnil.
      assert (Hin : In s (nonEmptySegments key)).
      { apply filter_In. split; [assumption |].
        destruct s; [contradiction | reflexivity]. }
      rewrite Hnil in Hin. contradiction. }
  unfold Path.normalize.
  assert (Hfull0 : (p ++ String "/" key)%string <> "") by now apply app_not_empty_l.
  apply String.eqb_neq in Hp, Hfull0. rewrite Hp, Hfull0.
  apply String.eqb_neq in Hp.
  rewrite startsWithSep_app by assumption.
  replace (Path.endsWithSep (p ++ String "/" key)) with false.
  2:{ symmetry. rewrite endsWithSep_app by discriminate.
      cbn [Path.endsWithSep]. destruct key; [contradiction | exact Hkend]. }
  rewrite Hend, segments_app, Hsegs.
  set (al := negb (Path.startsWithSep p)).
  set (N := Path.normalizeString al [] D).
  assert (HN : Path.normalizeString al [] (D ++ [last]) = N ++ [last]).
  { rewrite normalizeString_app. fold N.
    rewrite normalizeString_plain by (constructor; [split; assumption | constructor]).
    rewrite rev_involutive. cbn [filter].
    apply String.eqb_neq in Hl0. rewrite Hl0. reflexivity. }
  assert (HNK : Path.normalizeString al [] ((D ++ [last]) ++ Path.segments "" key)
                = (N ++ [last]) ++ nonEmptySegments key).
  { rewrite normalizeString_app, HN.
    rewrite normalizeString_plain by assumption.
    now rewrite rev_involutive. }
  rewrite HN, HNK.
  rewrite concat_app by (try assumption; now destruct N).
  destruct (concat_last "/" last N) as [pre Hpre].
  assert (Hbody : String.concat "/" (N ++ [last]) <> "")
    by (rewrite Hpre; now apply app_not_empty_r).
  set (body := String.concat "/" (N ++ [last])) in *.
  assert (Hbody' : (body ++ "/" ++ String.concat "/" (nonEmptySegments key))%string <> "")
    by now apply app_not_empty_l.
  apply String.eqb_neq in Hbody, Hbody'. rewrite Hbody, Hbody'.
  destruct (Path.startsWithSep p); [| reflexivity].
  now rewrite string_app_assoc.
Qed.

Lemma join_cache_file (d key : string) :
  Forall (fun c => c <> "."%char) (list_ascii_of_string key) ->
  (exists s, key = (s ++ "=")%string) ->
  Path.join [d; "cache"; "images"; key]
  = (Path.join [d; "cache"; "images"] ++ "/"
     ++ String.concat "/" (nonEmptySegments key))%string.
Proof.
  intros Hdots Hpad.
  assert (Hkey0 : (key =? "")%string = false).
  { apply String.eqb_neq. destruct Hpad as [s ->]. now apply app_not_empty_r. }
  unfold Path.join. cbn [filter]. rewrite Hkey0.
  change (negb ("cache" =? "")%string) with true.
  change (negb ("images" =? "")%string) with true.
  cbn [negb].
  destruct (String.eqb_spec d "") as [-> | Hd]; cbn [negb].
  - apply (normalize_extend "cache/images" key "images" ["cache"]);
      try reflexivity; try discriminate; assumption.
  - replace (String.concat "/" [d; "cache"; "images"; key])
      with ((d ++ String "/" "cache/images") ++ String "/" key)%string
      by (cbn [String.concat]; rewrite string_app_assoc; reflexivity).
    replace (String.concat "/" [d; "cache"; "images"])
      with (d ++ String "/" "cache/images")%string by reflexivity.
    apply (normalize_extend _ key "images" (Path.segments "" d ++ ["cache"]));
      try discriminate; try assumption.
    + rewrite segments_app, <- app_assoc. reflexivity.
    + rewrite endsWithSep_app by discriminate. reflexivity.
Qed.

Lemma dot_not_base64 (c : ascii) :
  In c (list_ascii_of_string Base64.alphabet) \/ c = "="%char -> c <> "."%char.
Proof.
  intros [Hin | ->] Heq; [| discriminate]. subst c.
  assert (H : existsb (Ascii.eqb ".") (list_ascii_of_string Base64.alphabet) = false)
    by (vm_compute; reflexivity).
  assert (H' : existsb (Ascii.eqb ".") (list_ascii_of_string Base64.alphabet) = true).
  { apply existsb_exists. exists "."%char. split; [assumption | reflexivity]. }
  congruence.
Qed.

(** ** X12: where the cache file lies *)

(** X12.  When the hash gives 32 bytes, as SHA-256 does, the path of the
    cache file is the path of the directory [cache/images] of [distDir],
    then a separator, then one or more names separated by separators: the
    non-empty segments of the cache key.  None of these names is [.] or
    [..], so the cache file always lies below [cache/images], in that
    directory or in a directory under it. *)
Theorem X12_cache_file_below_cache_directory
    (E : Env) (this : Server) (u ws qs m : string) :
  List.length (sha256 E (hashInput u ws qs m)) = 32%nat ->
  Forall isByte (sha256 E (hashInput u ws qs m)) ->
  let names := nonEmptySegments (cacheKey E u ws qs m) in
  names <> [] /\
  Forall plainName names /\
  cacheFileOf this (cacheKey E u ws qs m)
  = (Path.join [distDir this; "cache"; "images"] ++ "/"
     ++ String.concat "/" names)%string.
Proof.
  intros Hlen Hbytes names.
  destruct (cacheKey_chars_and_padding E u ws qs m Hlen Hbytes) as (Hchars & Hpad).
  assert (Hdots : Forall (fun c => c <> "."%char)
                    (list_ascii_of_string (cacheKey E u ws qs m))).
  { eapply Forall_impl; [| exact Hchars]. exact dot_not_base64. }
  split; [| split].
  - destruct Hpad as [s Hs].
    destruct (segments_cover "=" (cacheKey E u ws qs m) "" eq_refl) as [seg [Hseg Hc]].
    { cbn [list_ascii_of_string app]. rewrite Hs, chars_app.
      apply in_or_app. right. now left. }
    intros Hnil.
    assert (Hin : In seg names).
    { apply filter_In. split; [assumption |]. destruct seg; [contradiction | reflexivity]. }
    rewrite Hnil in Hin. contradiction.
  - pose proof (segments_chars (fun c => c <> "."%char) (cacheKey E u ws qs m) ""
                  (Forall_nil _) Hdots) as Hsegs.
    apply Forall_forall. intros name Hname.
    apply filter_In in Hname. destruct Hname as [Hin Hne].
    rewrite Forall_forall in Hsegs. specialize (Hsegs name Hin).
    repeat split.
    + intros ->. discriminate Hne.
    + intros ->. inversion Hsegs as [| ? ? [Hc _] _]. now apply Hc.
    + intros ->. inversion Hsegs as [| ? ? [Hc _] _]. now apply Hc.
    + eapply Forall_impl; [| exact Hsegs]. now intros c [_ Hc].
  - unfold cacheFileOf. now apply join_cache_file.
Qed.

(** The key of the first end-to-end scenario has two names. *)
Lemma X12_cache_file_below_cache_directory_witness :
  let E := Scenario.env WEBP [] Scenario.found in
  let this := Scenario.server [] [] in
  let key := cacheKey E "https://example.com/a.jpg" "640" "75" WEBP in
  nonEmptySegments key = ["PXBJD2k1ZREo6zTbK+DT7TUoh+A"; "Jq1pj2YbFvHOyOQ="] /\
  Forall plainName (nonEmptySegments key) /\
  cacheFileOf this key
  = (Path.join [distDir this; "cache"; "images"] ++ "/"
     ++ String.concat "/" (nonEmptySegments key))%string.
Proof.
  intros E this key.
  destruct (X12_cache_file_below_cache_directory E this
              "https://example.com/a.jpg" "640" "75" WEBP
              (SHA256_digest_length _) (SHA256_digest_bytes _))
    as (_ & Hnames & Hfile).
  split; [vm_compute; reflexivity |].
  split; [exact Hnames | exact Hfile].
Defined.

(** ** X13: what the image depends on *)

(** X13.  The transformed image depends on the parsed values only: two
    validated requests with the same source href, the same parsed width
    and quality and the same negotiated type, that both miss the cache,
    are served the same image once the transformer for these values is
    built, each under the cache file of its own key (the key is made from
    the [url], [w] and [q] parameters as written). *)
Theorem X13_image_depends_on_parsed_values
    (E : Env) (this : Server) (req1 req2 : Request) (v1 v2 : Validated)
    (mediaType : string) (pipe : list Z -> list Z)
    (r : FetchResponse) (bytes : list Z) :
  negotiate E req1 = Returns mediaType ->
  negotiate E req2 = Returns mediaType ->
  validate E this req1 = inr v1 ->
  validate E this req2 = inr v2 ->
  href (absoluteUrl v1) = href (absoluteUrl v2) ->
  width v1 = width v2 -> quality v1 = quality v2 ->
  let file1 := cacheFileOf this (cacheKey E (url v1) (w v1) (q v1) mediaType) in
  let file2 := cacheFileOf this (cacheKey E (url v2) (w v2) (q v2) mediaType) in
  fileExists E file1 = Returns false ->
  fileExists E file2 = Returns false ->
  sharp E (transformer (width v1) (quality v1) mediaType) = Returns pipe ->
  fetch E (href (absoluteUrl v1)) = Returns r -> ok r = true -> body r = Some bytes ->
  snd (imageOptimizer E this req1) = ServedTransformed file1 (pipe bytes) /\
  snd (imageOptimizer E this req2) = ServedTransformed file2 (pipe bytes).
Proof.
  intros Hm1 Hm2 Hv1 Hv2 Hhref Hwidth Hquality file1 file2 Hmiss1 Hmiss2
    Hsharp Hfetch Hok Hbody.
  split.
  - rewrite (imageOptimizer_validated E this req1 mediaType v1 Hm1 Hv1).
    rewrite (serve_miss E this mediaType v1 pipe r bytes Hmiss1 Hsharp Hfetch Hok Hbody).
    reflexivity.
  - rewrite (imageOptimizer_validated E this req2 mediaType v2 Hm2 Hv2).
    rewrite Hhref in Hfetch. rewrite Hwidth, Hquality in Hsharp.
    rewrite (serve_miss E this mediaType v2 pipe r bytes Hmiss2 Hsharp Hfetch Hok Hbody).
    reflexivity.
Qed.

(** Widths [640] and [640px] parse to the same number. *)
Lemma X13_image_depends_on_parsed_values_witness :
  let E := Scenario.env WEBP [] Scenario.found in
  let this := Scenario.server [] [] in
  let req ws := Scenario.request (Single "https://example.com/a.jpg") (Single ws)
                  (Single "75") "localhost" in
  let image := Scenario.codec [Resize 640; Webp 75] Scenario.image in
  snd (imageOptimizer E this (req "640"))
  = ServedTransformed
      (cacheFileOf this (cacheKey E "https://example.com/a.jpg" "640" "75" WEBP)) image /\
  snd (imageOptimizer E this (req "640px"))
  = ServedTransformed
      (cacheFileOf this (cacheKey E "https://example.com/a.jpg" "640px" "75" WEBP)) image.
Proof.
  intros E this req image.
  pose (v := fun ws =>
               {| url := "https://example.com/a.jpg";
                  absoluteUrl := {| hostname := "example.com";
                                    href := "https://example.com/a.jpg" |};
                  w := ws; q := "75"; width := 640; quality := 75 |}).
  apply (X13_image_depends_on_parsed_values E this (req "640") (req "640px")
           (v "640") (v "640px") WEBP (Scenario.codec [Resize 640; Webp 75])
           {| ok := true; status := 200; body := Some Scenario.image |}
           Scenario.image);
    reflexivity.
Defined.

(** ** X14: empty allow-lists *)

(** X14.  With an empty list of domains and an empty list of sizes, nothing
    is refused for its hostname or its width: every request whose [url]
    resolves, whose [w] parses to a non-zero number and whose [q] parses
    to a number from 1 to 100 passes validation, with the resolved URL and
    the parsed numbers. *)
Theorem X14_empty_allow_lists_restrict_nothing
    (E : Env) (this : Server) (req : Request) (u ws qs : string)
    (a : URL) (n m : Z) :
  domains this = [] -> sizes this = [] ->
  query_url req = Single u -> u <> "" ->
  resolvedUrl E (header_host req) u = Some a ->
  query_w req = Single ws -> ws <> "" -> JS.parseInt ws = Some n -> n <> 0 ->
  query_q req = Single qs -> qs <> "" -> JS.parseInt qs = Some m -> 1 <= m <= 100 ->
  validate E this req =
  inr {| url := u; absoluteUrl := a; w := ws; q := qs; width := n; quality := m |}.
Proof.
  intros Hd Hs Hu Hu0 Ha Hw Hw0 Hn Hn0 Hq Hq0 Hm Hb.
  assert (Hr : resolveUrl E this (header_host req) u = inr a).
  { unfold resolveUrl. unfold resolvedUrl in Ha. rewrite Hd.
    destruct (URL_new E u None) as [p |].
    - inversion Ha. reflexivity.
    - rewrite Ha. reflexivity. }
  rewrite (validate_reaches_quality E this req u a ws qs n Hu Hu0 Hr Hw Hw0 Hq Hq0 Hn Hn0)
    by (rewrite Hs; reflexivity).
  rewrite Hm.
  replace ((m <? 1) || (100 <? m)) with false; [reflexivity |].
  symmetry. apply orb_false_intro; apply Z.ltb_ge; lia.
Qed.

Lemma X14_empty_allow_lists_restrict_nothing_witness :
  validate (Scenario.env WEBP [] Scenario.found) (Scenario.server [] [])
    (Scenario.request (Single "https://intranet.example/x.jpg") (Single "5000")
       (Single "100") "localhost")
  = inr {| url := "https://intranet.example/x.jpg";
           absoluteUrl := {| hostname := "intranet.example";
                             href := "https://intranet.example/x.jpg" |};
           w := "5000"; q := "100"; width := 5000; quality := 100 |}.
Proof.
  apply (X14_empty_allow_lists_restrict_nothing
           (Scenario.env WEBP [] Scenario.found) (Scenario.server [] [])
           (Scenario.request (Single "https://intranet.example/x.jpg") (Single "5000")
              (Single "100") "localhost"));
    try reflexivity; try discriminate. lia.
Defined.
